(** * taskcluster-cli, package [status]: endpoint discovery, cache and pings

    A shallow embedding of [cmds/status/status.go].  The Go functions are
    written as state-passing functions over a [World] that holds what the
    program touches: the HTTP network, the cache folder, the clock and
    the terminal.  What the program only calls (encoding/json, net/url)
    is an interface, [Lib]; a small instance of it is given further down
    for closed examples. *)

From Stdlib Require Import ZArith List String Ascii Lia.
From stdpp Require Import base option gmap strings list fin_maps.

Local Open Scope string_scope.
Local Open Scope Z_scope.

(** ** Values of the Go program *)

(** Go's [error] values.  [None : option error] is Go's [nil] error. *)
Inductive error : Type :=
  | BadStatus (code : Z) (url : string)
      (* fmt.Errorf("Bad (!= 200) status code %v from %v", ...) *)
  | InvalidArguments
      (* fmt.Errorf("invalid argument(s) passed") *)
  | NotExist (path : string)
      (* reading a file that is not there *)
  | NilDereference
      (* the runtime's panic value on a nil pointer *)
  | LibError (msg : string).
      (* an error made by a library: transport, decoding, file system *)

(** What a Go call either returns or panics with. *)
Inductive Outcome (A : Type) : Type :=
  | Returned (a : A)
  | Panicked (e : error).
Arguments Returned {A} a.
Arguments Panicked {A} e.

(** [time.Time] as an instant, in nanoseconds on one time line, and
    [time.Duration], an int64 count of nanoseconds. *)
Definition Time := Z.
Definition Duration := Z.

Definition maxDuration : Duration := 2 ^ 63 - 1.
Definition minDuration : Duration := - 2 ^ 63.
Definition time_Nanosecond : Duration := 1.
Definition time_Second : Duration := 1000000000 * time_Nanosecond.
Definition time_Hour : Duration := 3600 * time_Second.

(** [t.Sub(u)]: the difference, held at the largest or smallest [Duration]
    when it does not fit. *)
Definition time_Sub (t u : Time) : Duration :=
  if maxDuration <? t - u then maxDuration
  else if t - u <? minDuration then minDuration
  else t - u.

(** [PingURLs]: service name to ping endpoint.  A nil map and an empty one
    read alike everywhere in this package; both are [∅]. *)
Abbreviation PingURLs := (gmap string string).

Record CachedURLs : Type := {
  LastUpdated : Time;      (* `json:"lastUpdated"` *)
  PingURLs_of : PingURLs   (* `json:"pingURLs"`    *)
}.

Record APIEntry : Type := {
  Name : string;           (* `json:"name"`  *)
  Route : string           (* `json:"route"` *)
}.

Record API : Type := {
  BaseURL : string;        (* `json:"baseUrl"` *)
  Entries : list APIEntry  (* `json:"entries"` *)
}.

(** [new(API)]. *)
Definition zero_API : API := {| BaseURL := ""; Entries := [] |}.

(** [*configdir.Config]: a folder. *)
Record Config : Type := { Path : string }.

(** What reaches the terminal: [fmt.Printf] text as it is, and the lines of
    [color.Yellow], [color.Magenta] and [color.Green], which end the line
    themselves. *)
Inductive Colour : Type := Yellow | Magenta | Green.
Inductive Output : Type :=
  | Plain (text : string)
  | Coloured (c : Colour) (text : string).

Definition LF : string := String (ascii_of_nat 10) EmptyString.

(** [filepath.Join] on two clean components. *)
Definition filepath_Join (a b : string) : string := a +:+ "/" +:+ b.

Definition manifestURL : string :=
  "https://references.taskcluster.net/manifest.json".
Definition pingURLsCachePath : string :=
  filepath_Join (filepath_Join "cmds" "status") "pingURLs.json".

(** [strings.SplitN(s, ".", 2)[0]]: [s] up to its first dot, all of [s]
    when it has none. *)
Fixpoint SplitN_dot_head (s : string) : string :=
  match s with
  | EmptyString => EmptyString
  | String c rest =>
      if Ascii.eqb c "."%char then EmptyString
      else String c (SplitN_dot_head rest)
  end.

(** ** The world

    The types below take as parameters the type of the bytes of a file or
    of a body, and the type of a float64; the libraries fix both. *)

Record PingResponse_of (F : Type) : Type := {
  Alive : bool;            (* `json:"alive"`  *)
  Uptime : F               (* `json:"uptime"` *)
}.
Arguments Alive {F} _.
Arguments Uptime {F} _.

Record Response_of (B : Type) : Type := {
  StatusCode : Z;
  Body : B;
  Body_Close : option error     (* what resp.Body.Close() returns *)
}.
Arguments StatusCode {B} _.
Arguments Body {B} _.
Arguments Body_Close {B} _.

(** An entry of the cache folder: a file that reads, or one that is there
    and does not (a directory, no permission). *)
Inductive File_of (B : Type) : Type :=
  | Content (b : B)
  | Unreadable (e : error).
Arguments Content {B} b.
Arguments Unreadable {B} e.

Record World_of (B : Type) : Type := {
  (** the network: what [http.Get] gives for a URL, after the requests
      made so far *)
  network : list string -> string -> Response_of B + error;
  (** every URL requested, oldest first *)
  requests : list string;
  (** the files, by full path *)
  files : gmap string (File_of B);
  (** whether writing to a path fails *)
  write_fault : string -> option error;
  (** the clock: the instant of the n-th reading *)
  clock : nat -> Time;
  readings : nat;
  (** the order in which the runtime ranges over a map with these entries *)
  range_order : list (string * string) -> list (string * string);
  (** the terminal, oldest first *)
  stdout : list Output
}.
Arguments network {B} _.
Arguments requests {B} _.
Arguments files {B} _.
Arguments write_fault {B} _.
Arguments clock {B} _.
Arguments readings {B} _.
Arguments range_order {B} _.
Arguments stdout {B} _.

(** ** The libraries the package calls *)

Class Lib : Type := {
  (** the bytes of a file or of an HTTP body *)
  Bytes : Type;
  (** float64 *)
  Float64 : Type;
  float64_zero : Float64;
  (** net/url *)
  URL : Type;
  url_Parse : string -> URL + error;
  url_Hostname : URL -> string;
  (** encoding/json, [Decode] and [Unmarshal] into the object given, which
      they return as they leave it, with their error *)
  json_Decode_manifest : Bytes -> gmap string string ->
                         gmap string string * option error;
  json_Decode_API : Bytes -> API -> API * option error;
  json_Decode_PingResponse : Bytes -> PingResponse_of Float64 ->
                             PingResponse_of Float64 * option error;
  json_Unmarshal_CachedURLs : Bytes -> option CachedURLs ->
                              option CachedURLs * option error;
  (** encoding/json, [MarshalIndent(v, "", "  ")] *)
  json_MarshalIndent : CachedURLs -> Bytes * option error
}.

Abbreviation PingResponse := (PingResponse_of Float64).
Abbreviation Response := (Response_of Bytes).
Abbreviation File := (File_of Bytes).
Abbreviation World := (World_of Bytes).

Section Status.

Context {L : Lib}.

Definition zero_PingResponse : PingResponse :=
  {| Alive := false; Uptime := float64_zero |}.

(** ** Running in the world *)

Definition M (A : Type) : Type := World -> A * World.

Definition ret {A} (a : A) : M A := fun w => (a, w).
Definition bind {A B} (m : M A) (k : A -> M B) : M B :=
  fun w => let (a, w') := m w in k a w'.

#[local] Instance M_ret : MRet M := @ret.
#[local] Instance M_bind : MBind M := fun A B k m => bind m k.

Definition http_Get (url : string) : M (Response + error) := fun w =>
  (network w (requests w) url,
   {| network := network w; requests := requests w ++ [url];
      files := files w; write_fault := write_fault w;
      clock := clock w; readings := readings w;
      range_order := range_order w; stdout := stdout w |}).

Definition time_Now : M Time := fun w =>
  (clock w (readings w),
   {| network := network w; requests := requests w;
      files := files w; write_fault := write_fault w;
      clock := clock w; readings := S (readings w);
      range_order := range_order w; stdout := stdout w |}).

Definition print (o : Output) : M unit := fun w =>
  (tt,
   {| network := network w; requests := requests w;
      files := files w; write_fault := write_fault w;
      clock := clock w; readings := readings w;
      range_order := range_order w; stdout := stdout w ++ [o] |}).

Definition range (m : gmap string string) : M (list (string * string)) :=
  fun w => (range_order w (map_to_list m), w).

(** [cache.Exists], [cache.ReadFile], [cache.WriteFile] of configdir. *)
Definition cache_Exists (cache : Config) (fileName : string) : M bool :=
  fun w => (bool_decide (is_Some (files w !! filepath_Join (Path cache) fileName)), w).

Definition cache_ReadFile (cache : Config) (fileName : string)
  : M (Bytes + error) := fun w =>
  (match files w !! filepath_Join (Path cache) fileName with
   | Some (Content b) => inl b
   | Some (Unreadable e) => inr e
   | None => inr (NotExist (filepath_Join (Path cache) fileName))
   end, w).

Definition cache_WriteFile (cache : Config) (fileName : string) (b : Bytes)
  : M (option error) := fun w =>
  match write_fault w (filepath_Join (Path cache) fileName) with
  | Some e => (Some e, w)
  | None =>
      (None,
       {| network := network w; requests := requests w;
          files := <[filepath_Join (Path cache) fileName := Content b]> (files w);
          write_fault := write_fault w;
          clock := clock w; readings := readings w;
          range_order := range_order w; stdout := stdout w |})
  end.

(** ** The package *)

(** [time.Since(t)]. *)
Definition time_Since (t : Time) : M Duration :=
  now ← time_Now; ret (time_Sub now t).

(** [Expired], a method of a pointer to [CachedURLs], which may be nil. *)
Definition Expired (cachedURLs : option CachedURLs) (d : Duration)
  : M (Outcome bool) :=
  match cachedURLs with
  | None => ret (Panicked NilDereference)
  | Some c =>
      since ← time_Since (LastUpdated c);
      ret (Returned (d <? since))
  end.

(** [objectFromJSONURL]: GET the URL and decode the body into [object].
    The deferred function closes the body and, when no error is being
    returned, returns what closing gave. *)
Definition objectFromJSONURL {A : Type}
    (json_Decode : Bytes -> A -> A * option error)
    (urlReturningJSON : string) (object : A) : M (A * option error) :=
  got ← http_Get urlReturningJSON;
  match got with
  | inr e => ret (object, Some e)
  | inl resp =>
      let deferred (err : option error) : option error :=
        match err with
        | None => Body_Close resp
        | Some _ => err
        end in
      if negb (StatusCode resp =? 200) then
        ret (object, deferred (Some (BadStatus (StatusCode resp) urlReturningJSON)))
      else
        let '(object', err) := json_Decode (Body resp) object in
        ret (object', deferred err)
  end.

(** The inner loop of [ScrapePingURLs]: the entries of one reference, up to
    the first one named ping.  It gives the map and the value of [err] as
    the loop leaves them; an error is the function's bare [return]. *)
Fixpoint scrape_entries (reference : API) (entries : list APIEntry)
    (pingURLs : PingURLs) : PingURLs * option error :=
  match entries with
  | [] => (pingURLs, None)
  | entry :: rest =>
      if String.eqb (Name entry) "ping" then
        match url_Parse (BaseURL reference) with
        | inr e => (pingURLs, Some e)
        | inl u =>
            let hostname := url_Hostname u in
            let service := SplitN_dot_head hostname in
            (<[service := BaseURL reference +:+ Route entry]> pingURLs, None)
        end
      else scrape_entries reference rest pingURLs
  end.

(** The outer loop of [ScrapePingURLs], over the reference URLs in the
    order the runtime ranges over the manifest. *)
Fixpoint scrape_references (apiURLs : list string) (pingURLs : PingURLs)
  : M (PingURLs * option error) :=
  match apiURLs with
  | [] => ret (pingURLs, None)
  | apiURL :: rest =>
      '(reference, err) ← objectFromJSONURL json_Decode_API apiURL zero_API;
      match err with
      | Some e => ret (pingURLs, Some e)
      | None =>
          match scrape_entries reference (Entries reference) pingURLs with
          | (pingURLs', Some e) => ret (pingURLs', Some e)
          | (pingURLs', None) => scrape_references rest pingURLs'
          end
      end
  end.

(** [ScrapePingURLs].  Its results are named: every [return] gives the
    map as it stands then. *)
Definition ScrapePingURLs (manifestURL : string) : M (PingURLs * option error) :=
  print (Coloured Yellow ("Scraping ping URLs from " +:+ manifestURL));;
  '(allAPIs, err) ← objectFromJSONURL json_Decode_manifest manifestURL ∅;
  match err with
  | Some e => ret (∅, Some e)
  | None =>
      order ← range allAPIs;
      scrape_references (map snd order) ∅
  end.

(** [PingURLs.Cache].  The pointer it returns is never nil: the record
    itself is returned. *)
Definition Cache (p : PingURLs) (cache : Config) (cachePath : string)
  : M (CachedURLs * option error) :=
  print (Coloured Magenta
           ("Writing cache file " +:+ filepath_Join (Path cache) cachePath));;
  now ← time_Now;
  let cachedURLs := {| LastUpdated := now; PingURLs_of := p |} in
  let '(bytes, err) := json_MarshalIndent cachedURLs in
  match err with
  | Some e => ret (cachedURLs, Some e)
  | None =>
      err ← cache_WriteFile cache cachePath bytes;
      ret (cachedURLs, err)
  end.

(** [ReadCachedURLsFile]. *)
Definition ReadCachedURLsFile (cache : Config) (cachePath : string)
  : M (option CachedURLs * option error) :=
  read ← cache_ReadFile cache cachePath;
  match read with
  | inr e => ret (None, Some e)
  | inl cachedURLsBytes => ret (json_Unmarshal_CachedURLs cachedURLsBytes None)
  end.

(** [RefreshCache]. *)
Definition RefreshCache (manifestURL : string) (cache : Config)
    (cachePath : string) : M (PingURLs * option error) :=
  '(pingURLs, err) ← ScrapePingURLs manifestURL;
  match err with
  | Some e => ret (pingURLs, Some e)
  | None =>
      '(cachedURLs, err) ← Cache pingURLs cache cachePath;
      ret (PingURLs_of cachedURLs, err)
  end.

(** [NewPingURLs]; the package variable [cache] is its argument.  A nil
    [cachedURLs] has made [Expired] panic before its map is read. *)
Definition NewPingURLs (cache : Config) : M (Outcome (PingURLs * option error)) :=
  there ← cache_Exists cache pingURLsCachePath;
  if negb there then
    r ← RefreshCache manifestURL cache pingURLsCachePath; ret (Returned r)
  else
    '(cachedURLs, err) ← ReadCachedURLsFile cache pingURLsCachePath;
    match err with
    | Some e => ret (Returned (∅, Some e))
    | None =>
        expired ← Expired cachedURLs (time_Hour * 24);
        match expired with
        | Panicked e => ret (Panicked e)
        | Returned true =>
            r ← RefreshCache manifestURL cache pingURLsCachePath; ret (Returned r)
        | Returned false =>
            ret (Returned (match cachedURLs with
                           | Some c => PingURLs_of c
                           | None => ∅
                           end, None))
        end
    end.

(** The part of [cobra.Command] the package sets and reads. *)
Record Command : Type := {
  Use : string;
  ValidArgs : list string
}.

(** The package variables [init] sets. *)
Record Package : Type := {
  pingURLs : PingURLs;
  validArgs : list string;
  statusCmd : Command
}.

(** [init]. *)
Definition init (cache : Config) : M (Outcome Package) :=
  r ← NewPingURLs cache;
  match r with
  | Panicked e => ret (Panicked e)
  | Returned (_, Some e) => ret (Panicked e)
  | Returned (pingURLs, None) =>
      order ← range pingURLs;
      let validArgs := map fst order in
      let use := fold_left (fun use validArg => use +:+ " [" +:+ validArg +:+ "]")
                           validArgs "status" in
      ret (Returned {| pingURLs := pingURLs; validArgs := validArgs;
                       statusCmd := {| Use := use; ValidArgs := validArgs |} |})
  end.

(** [validateArgs]: the inner loop, then the outer one. *)
Fixpoint is_validArg (arg : string) (validArgs : list string) : bool :=
  match validArgs with
  | [] => false
  | validArg :: rest => if String.eqb arg validArg then true else is_validArg arg rest
  end.

Fixpoint validateArgs (cmd : Command) (args : list string) : option error :=
  match args with
  | [] => None
  | arg :: rest =>
      if is_validArg arg (ValidArgs cmd) then validateArgs cmd rest
      else Some InvalidArguments
  end.

Definition preRun (cmd : Command) (args : list string) : option error :=
  validateArgs cmd args.

(** [respbody]; [pingURLs[service]] is the empty string for a missing key. *)
Definition respbody (pkg : Package) (service : string) : M (option error) :=
  '(servstat, err) ← objectFromJSONURL json_Decode_PingResponse
                        (default "" (pingURLs pkg !! service)) zero_PingResponse;
  match err with
  | Some e => ret (Some e)
  | None =>
      if Alive servstat then
        let living := "Alive" in
        print (Plain ("      " +:+ service +:+ LF));;
        print (Coloured Green ("      " +:+ living +:+ LF));;
        ret None
      else ret None
  end.

(** The loop of [status]. *)
Fixpoint status_services (pkg : Package) (args : list string)
  : M (Outcome (option error)) :=
  match args with
  | [] => ret (Returned None)
  | service :: rest =>
      err ← respbody pkg service;
      match err with
      | Some e => ret (Panicked e)
      | None => status_services pkg rest
      end
  end.

(** [status]. *)
Definition status (pkg : Package) (cmd : Command) (args : list string)
  : M (Outcome (option error)) :=
  let args := if (length args =? 0)%nat then validArgs pkg else args in
  status_services pkg args.

(** How cobra runs the command, flag parsing being off: [PreRunE] on the
    arguments, and [RunE] only when that returned nil. *)
Definition execute (pkg : Package) (args : list string)
  : M (Outcome (option error)) :=
  match preRun (statusCmd pkg) args with
  | Some e => ret (Returned (Some e))
  | None => status pkg (statusCmd pkg) args
  end.

(** One run of the program on [status args...]: the package's [init], then
    the command. *)
Definition run (cache : Config) (args : list string)
  : M (Outcome (option error)) :=
  started ← init cache;
  match started with
  | Panicked e => ret (Panicked e)
  | Returned pkg => execute pkg args
  end.

(** ** Words for the statements *)

(** No entry of the list is named ping. *)
Definition no_ping (entries : list APIEntry) : Prop :=
  Forall (fun entry => Name entry <> "ping") entries.

(** The cache file of the package is there. *)
Definition cache_there (cache : Config) (w : World) : Prop :=
  is_Some (files w !! filepath_Join (Path cache) pingURLsCachePath).

(** 24 hours, in nanoseconds. *)
Definition day : Duration := 24 * 3600 * 10 ^ 9.

(** The URL [respbody] requests for a service. *)
Definition ping_url (pkg : Package) (service : string) : string :=
  default "" (pingURLs pkg !! service).

(** What [respbody] prints for a service that is alive. *)
Definition alive_lines (service : string) : list Output :=
  [ Plain ("      " +:+ service +:+ LF); Coloured Green ("      " +:+ "Alive" +:+ LF) ].

End Status.

(** ** A small instance of the libraries

    Enough of encoding/json and net/url to run the package on closed
    examples: a document is kept as what it decodes to, and a URL is read
    as [scheme://host[:port][/path]]. *)

Inductive Document : Type :=
  | Doc_manifest (allAPIs : list (string * string))
  | Doc_API (reference : API)
  | Doc_ping (alive : bool) (uptime : Z * Z)
  | Doc_cache (c : CachedURLs)
  | Doc_null
  | Doc_malformed.

Definition cannot_unmarshal : error := LibError "json: cannot unmarshal".

Definition doc_Decode_manifest (b : Document) (object : gmap string string)
  : gmap string string * option error :=
  match b with
  | Doc_manifest allAPIs => (list_to_map (rev allAPIs) ∪ object, None)
  | Doc_null => (object, None)
  | _ => (object, Some cannot_unmarshal)
  end.

Definition doc_Decode_API (b : Document) (object : API) : API * option error :=
  match b with
  | Doc_API reference => (reference, None)
  | Doc_null => (object, None)
  | _ => (object, Some cannot_unmarshal)
  end.

Definition doc_Decode_PingResponse (b : Document) (object : PingResponse_of (Z * Z))
  : PingResponse_of (Z * Z) * option error :=
  match b with
  | Doc_ping alive uptime => ({| Alive := alive; Uptime := uptime |}, None)
  | Doc_null => (object, None)
  | _ => (object, Some cannot_unmarshal)
  end.

Definition doc_Unmarshal_CachedURLs (b : Document) (object : option CachedURLs)
  : option CachedURLs * option error :=
  match b with
  | Doc_cache c => (Some c, None)
  | Doc_null => (object, None)
  | _ => (object, Some cannot_unmarshal)
  end.

(** [Time.MarshalJSON] refuses a year outside 0..9999; the instants are
    counted from 1970-01-01T00:00:00Z. *)
Definition year_0 : Time := -62167219200 * time_Second.
Definition year_10000 : Time := 253402300800 * time_Second.

Definition doc_MarshalIndent (c : CachedURLs) : Document * option error :=
  if (year_0 <=? LastUpdated c) && (LastUpdated c <? year_10000)
  then (Doc_cache c, None)
  else (Doc_null, Some (LibError "Time.MarshalJSON: year outside of range [0,9999]")).

(** The text after the first [://], if there is one. *)
Fixpoint after_scheme (s : string) : option string :=
  match s with
  | String ":" (String "/" (String "/" rest)) => Some rest
  | String _ rest => after_scheme rest
  | EmptyString => None
  end.

Fixpoint up_to (stop : ascii) (s : string) : string :=
  match s with
  | EmptyString => EmptyString
  | String c rest => if Ascii.eqb c stop then EmptyString else String c (up_to stop rest)
  end.

Fixpoint has_space (s : string) : bool :=
  match s with
  | EmptyString => false
  | String c rest => Ascii.eqb c " "%char || has_space rest
  end.

Definition host_Parse (rawURL : string) : string + error :=
  match after_scheme rawURL with
  | None => inl ""
  | Some rest =>
      let host := up_to "/"%char rest in
      if has_space host then inr (LibError "invalid character in host name")
      else inl host
  end.

Definition host_Hostname (host : string) : string := up_to ":"%char host.

#[export] Instance DocLib : Lib := {|
  Bytes := Document;
  Float64 := Z * Z;
  float64_zero := (0, 0);
  URL := string;
  url_Parse := host_Parse;
  url_Hostname := host_Hostname;
  json_Decode_manifest := doc_Decode_manifest;
  json_Decode_API := doc_Decode_API;
  json_Decode_PingResponse := doc_Decode_PingResponse;
  json_Unmarshal_CachedURLs := doc_Unmarshal_CachedURLs;
  json_MarshalIndent := doc_MarshalIndent
|}.

(** A network that answers by table, whatever was asked before; a URL not
    in the table does not connect. *)
Fixpoint table_network (table : list (string * Response_of Document))
    (asked : list string) (url : string) : Response_of Document + error :=
  match table with
  | [] => inr (LibError "dial tcp: no such host")
  | (u, resp) :: rest =>
      if String.eqb u url then inl resp else table_network rest asked url
  end.

Definition ok_200 (b : Document) : Response_of Document :=
  {| StatusCode := 200; Body := b; Body_Close := None |}.

Definition answer_500 : Response_of Document :=
  {| StatusCode := 500; Body := Doc_null; Body_Close := None |}.

Definition alive_report : PingResponse_of (Z * Z) :=
  {| Alive := true; Uptime := (125, -1) |}.

(** ** Worlds for closed examples *)

(** A world with nothing requested or printed yet, a clock standing at
    [now], a disk that takes every write and a runtime that ranges over a
    map in the order of [map_to_list]. *)
Definition quiet_world
    (net : list string -> string -> Response_of Document + error)
    (disk : gmap string (File_of Document)) (now : Time)
  : World_of Document :=
  {| network := net; requests := []; files := disk;
     write_fault := fun _ => None;
     clock := fun _ => now; readings := 0;
     range_order := fun entries => entries; stdout := [] |}.

Definition queue_reference : API :=
  {| BaseURL := "https://queue.taskcluster.net";
     Entries := [ {| Name := "ping"; Route := "/ping" |} ] |}.

(** The manifest and the reference of the specification's example. *)
Definition queue_network : list string -> string -> Response_of Document + error :=
  table_network
    [ (manifestURL, ok_200 (Doc_manifest [("queue", "https://queue.example.com/ref")]));
      ("https://queue.example.com/ref", ok_200 (Doc_API queue_reference)) ].

(** The same reference under another manifest key. *)
Definition renamed_network : list string -> string -> Response_of Document + error :=
  table_network
    [ (manifestURL, ok_200 (Doc_manifest [("q", "https://queue.example.com/ref")]));
      ("https://queue.example.com/ref", ok_200 (Doc_API queue_reference)) ].

(** Two services; the second reference answers 500. *)
Definition half_network : list string -> string -> Response_of Document + error :=
  table_network
    [ (manifestURL,
       ok_200 (Doc_manifest [("queue", "https://queue.example.com/ref");
                             ("auth", "https://auth.example.com/ref")]));
      ("https://queue.example.com/ref", ok_200 (Doc_API queue_reference));
      ("https://auth.example.com/ref", answer_500) ].

(** Two services; the first reference has no entry named ping. *)
Definition docs_reference : API :=
  {| BaseURL := "https://docs.taskcluster.net";
     Entries := [ {| Name := "version"; Route := "/version" |} ] |}.

Definition docs_network : list string -> string -> Response_of Document + error :=
  table_network
    [ ("https://docs.example.com/ref", ok_200 (Doc_API docs_reference));
      ("https://queue.example.com/ref", ok_200 (Doc_API queue_reference)) ].

(** The cache folder of the examples, and its cache file. *)
Definition home_cache : Config := {| Path := "/home/user/.cache/taskcluster-cli" |}.
Definition cache_file : string := filepath_Join (Path home_cache) pingURLsCachePath.

Definition queue_only : PingURLs := {[ "queue" := "https://queue.taskcluster.net/ping" ]}.

(** A world like [quiet_world] whose disk refuses every write. *)
Definition read_only_world
    (net : list string -> string -> Response_of Document + error)
    (disk : gmap string (File_of Document)) (now : Time)
  : World_of Document :=
  {| network := net; requests := []; files := disk;
     write_fault := fun _ => Some (LibError "read-only file system");
     clock := fun _ => now; readings := 0;
     range_order := fun entries => entries; stdout := [] |}.

(** A cache file written at instant 0. *)
Definition written_at_0 : CachedURLs :=
  {| LastUpdated := 0; PingURLs_of := queue_only |}.
Definition file_of_0 : File_of Document := Content (Doc_cache written_at_0).
Definition cached_at_0 : gmap string (File_of Document) :=
  {[ cache_file := file_of_0 ]}.

(** A cache file that is there and does not read. *)
Definition locked_file : File_of Document :=
  Unreadable (LibError "permission denied").
Definition locked_cache : gmap string (File_of Document) :=
  {[ cache_file := locked_file ]}.

(** A cache file that reads and does not decode. *)
Definition garbled_file : File_of Document := Content Doc_malformed.
Definition garbled_cache : gmap string (File_of Document) :=
  {[ cache_file := garbled_file ]}.

(** The package as [init] leaves it when queue is the one service. *)
Definition queue_package : Package :=
  {| pingURLs := queue_only; validArgs := [ "queue" ];
     statusCmd := {| Use := "status [queue]"; ValidArgs := [ "queue" ] |} |}.

(** Three services known; queue is alive, auth answers 500. *)
Definition three_services : Package :=
  {| pingURLs := {[ "queue" := "https://queue.taskcluster.net/ping";
                    "auth" := "https://auth.taskcluster.net/ping";
                    "index" := "https://index.taskcluster.net/ping" ]};
     validArgs := [ "queue"; "auth"; "index" ];
     statusCmd := {| Use := "status [queue] [auth] [index]";
                     ValidArgs := [ "queue"; "auth"; "index" ] |} |}.

Definition ping_network : list string -> string -> Response_of Document + error :=
  table_network
    [ ("https://queue.taskcluster.net/ping", ok_200 (Doc_ping true (125, -1)));
      ("https://auth.taskcluster.net/ping", answer_500);
      ("https://index.taskcluster.net/ping", ok_200 (Doc_ping false (0, 0))) ].

(** ** More words for the statements *)

(** The string has a dot. *)
Fixpoint has_dot (s : string) : bool :=
  match s with
  | EmptyString => false
  | String c rest => Ascii.eqb c "."%char || has_dot rest
  end.

(** No service name of the map has a dot. *)
Definition names_without_dot (p : PingURLs) : Prop :=
  forall (k v : string), p !! k = Some v -> has_dot k = false.

(** The usage line of the command for these valid arguments. *)
Fixpoint usage_line (validArgs : list string) : string :=
  match validArgs with
  | [] => ""
  | validArg :: rest => " [" +:+ validArg +:+ "]" +:+ usage_line rest
  end.

Section Frames.

Context {L : Lib}.

(** Between the two worlds nothing but the list of requests has changed. *)
Definition only_requests (w w' : World) : Prop :=
  network w' = network w /\ files w' = files w /\
  write_fault w' = write_fault w /\ clock w' = clock w /\
  readings w' = readings w /\ range_order w' = range_order w /\
  stdout w' = stdout w.

(** The services [status] pings for these arguments. *)
Definition pinged (pkg : Package) (args : list string) : list string :=
  match args with
  | [] => validArgs pkg
  | _ :: _ => args
  end.

End Frames.

(** ** Package [expandscope]

    The command sends the scopes it is given to the auth service and
    prints the expanded set.  The service is the world's: what
    [a.ExpandScopes] returns for a call, after the calls made so far,
    either the scopes of the response or the text of the error. *)

(** A value of the parsed command line, [context.Arguments]. *)
Inductive ArgValue : Type :=
  | ArgStrings (l : list string)     (* a []string *)
  | ArgBool (b : bool)               (* a bool *)
  | ArgOther.                        (* a value of any other type *)

Record ExtContext : Type := {
  Arguments_of : gmap string ArgValue    (* context.Arguments *)
}.

(** A call of the auth client: whether it signs its requests, and the
    [SetOfScopes] it sends. *)
Record AuthCall : Type := {
  Authenticate : bool;
  Scopes : list string
}.

Record ScopeWorld : Type := {
  auth_service : list AuthCall -> AuthCall -> list string + string;
  auth_calls : list AuthCall;        (* oldest first *)
  printed : list Output              (* oldest first *)
}.

(** The panic of a failed type assertion. *)
Definition interface_conversion : error := LibError "interface conversion".

Definition scope_print (text : string) (w : ScopeWorld) : ScopeWorld :=
  {| auth_service := auth_service w; auth_calls := auth_calls w;
     printed := printed w ++ [Plain text] |}.

(** The loop of [expandScope] over [resp.Scopes]. *)
Fixpoint print_scopes (scopes : list string) (w : ScopeWorld) : ScopeWorld :=
  match scopes with
  | [] => w
  | s :: rest => print_scopes rest (scope_print (s +:+ LF) w)
  end.

(** [expandScope]. *)
Definition expandScope (inputScopes : list string) (w : ScopeWorld)
  : bool * ScopeWorld :=
  let a := {| Authenticate := false; Scopes := inputScopes |} in
  let called := {| auth_service := auth_service w;
                   auth_calls := auth_calls w ++ [a];
                   printed := printed w |} in
  match auth_service w (auth_calls w) a with
  | inr err => (false, scope_print ("Error expanding scopes: " +:+ err +:+ LF) called)
  | inl scopes => (true, print_scopes scopes called)
  end.

(** [expandscope.Execute]; each type assertion panics on a value of
    another type, and on a missing key. *)
Definition Execute (context : ExtContext) (w : ScopeWorld)
  : Outcome bool * ScopeWorld :=
  let argv := Arguments_of context in
  match argv !! "<scope>" with
  | Some (ArgStrings inputScopes) =>
      match argv !! "expand-scope" with
      | Some (ArgBool true) =>
          let '(ok, w') := expandScope inputScopes w in (Returned ok, w')
      | Some (ArgBool false) => (Returned true, w)
      | _ => (Panicked interface_conversion, w)
      end
  | _ => (Panicked interface_conversion, w)
  end.

(** ** More worlds for closed examples *)

(** A cache file holding the JSON null. *)
Definition null_file : File_of Document := Content Doc_null.
Definition null_cache : gmap string (File_of Document) :=
  {[ cache_file := null_file ]}.

(** The queue answers that it is alive, and closing the body fails. *)
Definition alive_unclosed : Response_of Document :=
  {| StatusCode := 200; Body := Doc_ping true (125, -1);
     Body_Close := Some (LibError "close: connection reset") |}.

Definition unclosed_network : list string -> string -> Response_of Document + error :=
  table_network [ ("https://queue.taskcluster.net/ping", alive_unclosed) ].

(** A world whose cache was written 25 hours ago, and the world
    [NewPingURLs] leaves from it. *)
Definition stale_world : World_of Document :=
  quiet_world queue_network cached_at_0 (25 * 3600 * 10 ^ 9).
Definition refreshed_world : World_of Document :=
  (NewPingURLs (L := DocLib) home_cache stale_world).2.

(** A reference whose base URL does not parse. *)
Definition spaced_reference : API :=
  {| BaseURL := "https://que ue.taskcluster.net";
     Entries := [ {| Name := "ping"; Route := "/ping" |} ] |}.

Definition spaced_network : list string -> string -> Response_of Document + error :=
  table_network
    [ ("https://spaced.example.com/ref", ok_200 (Doc_API spaced_reference));
      ("https://queue.example.com/ref", ok_200 (Doc_API queue_reference)) ].

(** An auth service that expands one role, and one that is down. *)
Definition role_service (asked : list AuthCall) (a : AuthCall) : list string + string :=
  inl (Scopes a ++ [ "queue:create-task:*" ])%list.

Definition down_service (asked : list AuthCall) (a : AuthCall) : list string + string :=
  inr "connection refused".

Definition scope_world (service : list AuthCall -> AuthCall -> list string + string)
  : ScopeWorld :=
  {| auth_service := service; auth_calls := []; printed := [] |}.

Definition expand_arguments (flag : ArgValue) : ExtContext :=
  {| Arguments_of := {[ "<scope>" := ArgStrings [ "assume:repo:x" ];
                        "expand-scope" := flag ]} |}.

(** ** Properties *)

(** Running a computation: the binds give way to the state they pass. *)
Ltac run_M :=
  cbv beta delta [mbind M_bind bind mret M_ret ret] in *.

(** A closed run: the value by evaluation, the world left as it is. *)
Ltac run_fst :=
  lazymatch goal with
  | |- ?x = (?v, ?w) =>
      apply (injective_projections x (v, w));
      [ vm_compute; reflexivity | reflexivity ]
  end.

(** The same, with the world's side reduced to the world first. *)
Ltac run_value :=
  lazymatch goal with
  | |- ?x = (?v, ?w) =>
      apply (injective_projections x (v, w));
      [ vm_compute; reflexivity | cbn [snd]; reflexivity ]
  end.

Section Properties.

Context {L : Lib}.

(** *** The clock and staleness *)

Lemma time_Sub_exceeds (t u : Time) (d : Duration) :
  minDuration <= d < maxDuration ->
  (d <? time_Sub t u) = (d <? t - u).
Proof.
  intros [Hlo Hhi]. unfold time_Sub.
  destruct (Z.ltb_spec maxDuration (t - u)) as [Hmax | Hmax].
  - transitivity true; [ | symmetry ]; apply Z.ltb_lt; lia.
  - destruct (Z.ltb_spec (t - u) minDuration) as [Hmin | Hmin]; [ | reflexivity ].
    transitivity false; [ | symmetry ]; apply Z.ltb_ge; lia.
Qed.

Lemma day_is_a_Duration : minDuration <= time_Hour * 24 < maxDuration.
Proof. vm_compute. split; [ discriminate | reflexivity ]. Qed.

Lemma Expired_run (w : World) (c : CachedURLs) (d : Duration) :
  minDuration <= d < maxDuration ->
  (Expired (Some c) d w).1 = Returned (d <? clock w (readings w) - LastUpdated c).
Proof.
  intros Hd. unfold Expired, time_Since, time_Now. run_M. cbn.
  f_equal. by apply time_Sub_exceeds.
Qed.

(** C1. With the threshold of 24 hours, [Expired] returns, and returns true
    exactly when the clock's reading minus [LastUpdated] is more than 24
    hours; a record exactly 24 hours old is not stale. *)
Theorem Expired_iff_older_than_a_day :
  (forall (w : World) (R : CachedURLs),
     exists b : bool,
       (Expired (Some R) (time_Hour * 24) w).1 = Returned b /\
       (b = true <-> clock w (readings w) - LastUpdated R > day)) /\
  (forall (w : World) (m : PingURLs),
     (Expired (Some {| LastUpdated := clock w (readings w) - day;
                       PingURLs_of := m |})
              (time_Hour * 24) w).1 = Returned false).
Proof.
  split.
  - intros w R. eexists. split.
    + apply Expired_run, day_is_a_Duration.
    + rewrite Z.ltb_lt. change (time_Hour * 24) with 86400000000000.
      change day with 86400000000000. lia.
  - intros w m. rewrite Expired_run by apply day_is_a_Duration.
    f_equal. apply Z.ltb_ge. cbn [LastUpdated].
    change (time_Hour * 24) with 86400000000000.
    change day with 86400000000000. lia.
Qed.

(** *** The endpoint resolver *)

Lemma scrape_entries_no_ping (reference : API) (entries : list APIEntry)
    (p : PingURLs) :
  no_ping entries -> scrape_entries reference entries p = (p, None).
Proof.
  induction 1 as [ | entry rest Hname _ IH ]; [ reflexivity | ].
  cbn [scrape_entries]. apply String.eqb_neq in Hname. by rewrite Hname.
Qed.

Lemma scrape_entries_first_ping (reference : API) (pre post : list APIEntry)
    (entry : APIEntry) (u : URL) (p : PingURLs) :
  no_ping pre -> Name entry = "ping" ->
  url_Parse (BaseURL reference) = inl u ->
  scrape_entries reference (pre ++ entry :: post)%list p =
    (<[SplitN_dot_head (url_Hostname u) := BaseURL reference +:+ Route entry]> p,
     None).
Proof.
  intros Hpre Hname Hparse.
  induction Hpre as [ | e rest Hne _ IH ]; cbn [app scrape_entries].
  - apply String.eqb_eq in Hname. by rewrite Hname, Hparse.
  - apply String.eqb_neq in Hne. by rewrite Hne.
Qed.

Lemma scrape_references_cons (apiURL : string) (rest : list string)
    (p : PingURLs) (w w1 : World) (reference : API) (err : option error) :
  objectFromJSONURL json_Decode_API apiURL zero_API w = ((reference, err), w1) ->
  scrape_references (apiURL :: rest) p w =
    match err with
    | Some e => ((p, Some e), w1)
    | None =>
        match scrape_entries reference (Entries reference) p with
        | (p', Some e) => ((p', Some e), w1)
        | (p', None) => scrape_references rest p' w1
        end
    end.
Proof.
  intros Hget. cbn [scrape_references]. run_M. rewrite Hget.
  destruct err; [ reflexivity | ].
  by destruct (scrape_entries _ _ _) as [p' [e | ]].
Qed.

Lemma scrape_references_app (pre rest : list string) (p p1 : PingURLs)
    (w w1 : World) :
  scrape_references pre p w = ((p1, None), w1) ->
  scrape_references (pre ++ rest)%list p w = scrape_references rest p1 w1.
Proof.
  revert p w. induction pre as [ | apiURL pre IH ]; intros p w Hpre.
  - cbn in Hpre. run_M. by inversion Hpre.
  - cbn [app].
    destruct (objectFromJSONURL json_Decode_API apiURL zero_API w)
      as [[reference err] w0] eqn:Hget.
    rewrite (scrape_references_cons _ pre _ _ _ _ _ Hget) in Hpre.
    rewrite (scrape_references_cons _ (pre ++ rest)%list _ _ _ _ _ Hget).
    destruct err; [ discriminate | ].
    destruct (scrape_entries _ _ _) as [p' [e | ]]; [ discriminate | ].
    by apply IH.
Qed.

Lemma objectFromJSONURL_requests {A : Type}
    (dec : Bytes -> A -> A * option error) (url : string) (object : A)
    (w : World) :
  requests (objectFromJSONURL dec url object w).2 = (requests w ++ [url])%list /\
  files (objectFromJSONURL dec url object w).2 = files w /\
  stdout (objectFromJSONURL dec url object w).2 = stdout w.
Proof.
  unfold objectFromJSONURL, http_Get. run_M.
  destruct (network w (requests w) url) as [resp | e]; [ | done ].
  destruct (negb _); [ done | ].
  by destruct (dec _ _).
Qed.

Lemma ScrapePingURLs_run (url : string) (w w1 : World)
    (allAPIs : gmap string string) (err : option error) :
  objectFromJSONURL json_Decode_manifest url ∅
    (print (Coloured Yellow ("Scraping ping URLs from " +:+ url)) w).2
    = ((allAPIs, err), w1) ->
  ScrapePingURLs url w =
    match err with
    | Some e => ((∅, Some e), w1)
    | None => scrape_references (map snd (range_order w1 (map_to_list allAPIs))) ∅ w1
    end.
Proof.
  intros Hget. unfold ScrapePingURLs. run_M.
  destruct (print _ w) as [[] w0] eqn:Hprint. cbn [snd] in Hget.
  rewrite Hget. by destruct err.
Qed.

Lemma RefreshCache_error (url : string) (cache : Config) (path : string)
    (w w1 : World) (p : PingURLs) (e : error) :
  ScrapePingURLs url w = ((p, Some e), w1) ->
  RefreshCache url cache path w = ((p, Some e), w1).
Proof. intros Hscrape. unfold RefreshCache. run_M. by rewrite Hscrape. Qed.

(** C2, as the code has it. A failed fetch or decode ends the resolution
    there, with that error: no later reference is requested and
    [RefreshCache] hands the error on without writing the cache.  The map
    returned beside the error is nil when the manifest failed, and the
    endpoints gathered so far when a reference failed. *)
Theorem ScrapePingURLs_stops_at_failure :
  (forall (url : string) (w w1 : World) (object : gmap string string) (e : error),
     objectFromJSONURL json_Decode_manifest url ∅
       (print (Coloured Yellow ("Scraping ping URLs from " +:+ url)) w).2
       = ((object, Some e), w1) ->
     ScrapePingURLs url w = ((∅, Some e), w1)) /\
  (forall (url : string) (w w1 w2 w3 : World) (allAPIs : gmap string string)
          (pre post : list string) (apiURL : string) (p : PingURLs)
          (reference : API) (e : error),
     objectFromJSONURL json_Decode_manifest url ∅
       (print (Coloured Yellow ("Scraping ping URLs from " +:+ url)) w).2
       = ((allAPIs, None), w1) ->
     map snd (range_order w1 (map_to_list allAPIs)) = (pre ++ apiURL :: post)%list ->
     scrape_references pre ∅ w1 = ((p, None), w2) ->
     objectFromJSONURL json_Decode_API apiURL zero_API w2 = ((reference, Some e), w3) ->
     ScrapePingURLs url w = ((p, Some e), w3) /\
     requests w3 = (requests w2 ++ [apiURL])%list /\
     forall (cache : Config) (path : string),
       RefreshCache url cache path w = ((p, Some e), w3) /\ files w3 = files w2).
Proof.
  split.
  - intros url w w1 object e Hget. by rewrite (ScrapePingURLs_run _ _ _ _ _ Hget).
  - intros url w w1 w2 w3 allAPIs pre post apiURL p reference e Hget Horder Hpre Hfail.
    assert (Hscrape : ScrapePingURLs url w = ((p, Some e), w3)).
    { rewrite (ScrapePingURLs_run _ _ _ _ _ Hget), Horder.
      rewrite (scrape_references_app _ _ _ _ _ _ Hpre).
      by rewrite (scrape_references_cons _ _ _ _ _ _ _ Hfail). }
    pose proof (objectFromJSONURL_requests json_Decode_API apiURL zero_API w2)
      as (Hreq & Hfiles & _).
    rewrite Hfail in Hreq, Hfiles. cbn [snd] in Hreq, Hfiles.
    repeat split; try done.
    by apply RefreshCache_error.
Qed.

(** C8. A reference with no entry named ping adds no key and is no error:
    the map goes on to the remaining references as it was. *)
Theorem scrape_references_skips_no_ping (apiURL : string) (rest : list string)
    (p : PingURLs) (w w1 : World) (reference : API) :
  objectFromJSONURL json_Decode_API apiURL zero_API w = ((reference, None), w1) ->
  no_ping (Entries reference) ->
  scrape_entries reference (Entries reference) p = (p, None) /\
  scrape_references (apiURL :: rest) p w = scrape_references rest p w1.
Proof.
  intros Hget Hnone.
  pose proof (scrape_entries_no_ping reference _ p Hnone) as Hentries.
  split; [ done | ].
  by rewrite (scrape_references_cons _ _ _ _ _ _ _ Hget), Hentries.
Qed.

(** C3. A reference whose first entry named ping is [entry], and whose
    base URL parses, puts [BaseURL +:+ Route entry] under the host name up
    to its first dot; resolving a manifest of one service, under whatever
    key, gives the map with that one name; and the manifest and reference of
    the example give queue with https://queue.taskcluster.net/ping. *)
Theorem ScrapePingURLs_names_service_by_host :
  (forall (apiURL : string) (rest : list string) (p : PingURLs) (w w1 : World)
          (reference : API) (pre post : list APIEntry) (entry : APIEntry) (u : URL),
     objectFromJSONURL json_Decode_API apiURL zero_API w = ((reference, None), w1) ->
     Entries reference = (pre ++ entry :: post)%list ->
     no_ping pre -> Name entry = "ping" ->
     url_Parse (BaseURL reference) = inl u ->
     scrape_references (apiURL :: rest) p w =
       scrape_references rest
         (<[SplitN_dot_head (url_Hostname u) := BaseURL reference +:+ Route entry]> p)
         w1) /\
  (forall (url key apiURL : string) (w w1 w2 : World)
          (reference : API) (pre post : list APIEntry) (entry : APIEntry) (u : URL),
     objectFromJSONURL json_Decode_manifest url ∅
       (print (Coloured Yellow ("Scraping ping URLs from " +:+ url)) w).2
       = (({[ key := apiURL ]}, None), w1) ->
     range_order w1 [ (key, apiURL) ] = [ (key, apiURL) ] ->
     objectFromJSONURL json_Decode_API apiURL zero_API w1 = ((reference, None), w2) ->
     Entries reference = (pre ++ entry :: post)%list ->
     no_ping pre -> Name entry = "ping" ->
     url_Parse (BaseURL reference) = inl u ->
     ScrapePingURLs url w =
       (({[ SplitN_dot_head (url_Hostname u) := BaseURL reference +:+ Route entry ]},
         None), w2)) /\
  (ScrapePingURLs (L := DocLib) manifestURL (quiet_world queue_network ∅ 0)).1 =
    ({[ "queue" := "https://queue.taskcluster.net/ping" ]}, None).
Proof.
  assert (Hstep : forall (apiURL : string) (rest : list string) (p : PingURLs)
            (w w1 : World) (reference : API) (pre post : list APIEntry)
            (entry : APIEntry) (u : URL),
     objectFromJSONURL json_Decode_API apiURL zero_API w = ((reference, None), w1) ->
     Entries reference = (pre ++ entry :: post)%list ->
     no_ping pre -> Name entry = "ping" ->
     url_Parse (BaseURL reference) = inl u ->
     scrape_references (apiURL :: rest) p w =
       scrape_references rest
         (<[SplitN_dot_head (url_Hostname u) := BaseURL reference +:+ Route entry]> p)
         w1).
  { intros apiURL rest p w w1 reference pre post entry u Hget Hentries Hpre Hname Hparse.
    rewrite (scrape_references_cons _ _ _ _ _ _ _ Hget), Hentries.
    by rewrite (scrape_entries_first_ping _ _ _ _ _ _ Hpre Hname Hparse). }
  split; [ exact Hstep | split ].
  - intros url key apiURL w w1 w2 reference pre post entry u
      Hmanifest Horder Hget Hentries Hpre Hname Hparse.
    rewrite (ScrapePingURLs_run _ _ _ _ _ Hmanifest).
    rewrite map_to_list_singleton, Horder. cbn [map snd].
    by rewrite (Hstep _ _ _ _ _ _ _ _ _ _ Hget Hentries Hpre Hname Hparse).
  - vm_compute; reflexivity.
Qed.

(** *** The cache store *)

Lemma ReadCachedURLsFile_world (cache : Config) (path : string) (w : World) :
  (ReadCachedURLsFile cache path w).2 = w.
Proof.
  unfold ReadCachedURLsFile, cache_ReadFile. run_M.
  by destruct (files w !! _) as [[b | e] | ].
Qed.

Lemma Cache_run (p : PingURLs) (cache : Config) (path : string) (w w1 : World)
    (c : CachedURLs) (err : option error) :
  Cache p cache path w = ((c, err), w1) ->
  c = {| LastUpdated := clock w (readings w); PingURLs_of := p |} /\
  requests w1 = requests w /\
  match err with
  | None =>
      (json_MarshalIndent c).2 = None /\
      files w1 = <[filepath_Join (Path cache) path := Content (json_MarshalIndent c).1]>
                   (files w)
  | Some e =>
      files w1 = files w /\
      ((json_MarshalIndent c).2 = Some e \/
       (json_MarshalIndent c).2 = None /\
       write_fault w (filepath_Join (Path cache) path) = Some e)
  end.
Proof.
  unfold Cache, print, time_Now, cache_WriteFile. run_M. cbn.
  destruct (json_MarshalIndent _) as [bytes [e | ]] eqn:Hmarshal; cbn.
  - intros Heq; inversion Heq; subst; clear Heq.
    rewrite Hmarshal. cbn. auto.
  - destruct (write_fault w _) as [e | ] eqn:Hfault.
    + intros Heq; inversion Heq; subst; clear Heq.
      rewrite Hmarshal. cbn. auto 6.
    + intros Heq; inversion Heq; subst; clear Heq.
      rewrite Hmarshal. cbn. auto.
Qed.


Lemma NewPingURLs_absent (cache : Config) (w : World) :
  ~ cache_there cache w ->
  NewPingURLs cache w =
    (Returned (RefreshCache manifestURL cache pingURLsCachePath w).1,
     (RefreshCache manifestURL cache pingURLsCachePath w).2).
Proof.
  intros Habsent. unfold NewPingURLs, cache_Exists. run_M.
  rewrite bool_decide_eq_false_2 by done. cbn [negb].
  by destruct (RefreshCache _ _ _ w).
Qed.

Lemma NewPingURLs_read_error (cache : Config) (w : World)
    (object : option CachedURLs) (e : error) :
  cache_there cache w ->
  (ReadCachedURLsFile cache pingURLsCachePath w).1 = (object, Some e) ->
  NewPingURLs cache w = (Returned (∅, Some e), w).
Proof.
  intros Hthere Hread. unfold NewPingURLs, cache_Exists. run_M.
  rewrite bool_decide_eq_true_2 by done. cbn [negb].
  pose proof (ReadCachedURLsFile_world cache pingURLsCachePath w) as Hworld.
  destruct (ReadCachedURLsFile _ _ w) as [[c err] w0].
  cbn in Hread, Hworld. by inversion Hread; subst.
Qed.

Lemma NewPingURLs_read (cache : Config) (w : World) (c : CachedURLs) :
  cache_there cache w ->
  (ReadCachedURLsFile cache pingURLsCachePath w).1 = (Some c, None) ->
  NewPingURLs cache w =
    if day <? clock w (readings w) - LastUpdated c then
      (Returned (RefreshCache manifestURL cache pingURLsCachePath (time_Now w).2).1,
       (RefreshCache manifestURL cache pingURLsCachePath (time_Now w).2).2)
    else (Returned (PingURLs_of c, None), (time_Now w).2).
Proof.
  intros Hthere Hread. unfold NewPingURLs, cache_Exists. run_M.
  rewrite bool_decide_eq_true_2 by done. cbn [negb].
  pose proof (ReadCachedURLsFile_world cache pingURLsCachePath w) as Hworld.
  destruct (ReadCachedURLsFile _ _ w) as [[c0 err] w0].
  cbn in Hread, Hworld. inversion Hread; subst.
  unfold Expired, time_Since. run_M.
  destruct (time_Now w) as [now w1] eqn:Hnow.
  assert (Hclock : now = clock w (readings w)) by (by inversion Hnow).
  rewrite time_Sub_exceeds by apply day_is_a_Duration.
  change (time_Hour * 24) with day. rewrite Hclock. cbn [snd].
  destruct (day <? _); [ | reflexivity ].
  by destruct (RefreshCache _ _ _ w1).
Qed.

Lemma init_error (cache : Config) (w w1 : World) (p : PingURLs) (e : error) :
  NewPingURLs cache w = (Returned (p, Some e), w1) ->
  init cache w = (Panicked e, w1).
Proof. intros Hnew. unfold init. run_M. by rewrite Hnew. Qed.

(** C5, as the code has it. A cache file that is there and cannot be read
    or decoded makes [NewPingURLs] return that error, and [init] panic with
    it: nothing is requested, written or printed.  Requests are made only
    when the file is absent, or read and older than 24 hours. *)
Theorem NewPingURLs_unreadable_cache_is_an_error :
  (forall (cache : Config) (w : World) (object : option CachedURLs) (e : error),
     cache_there cache w ->
     (ReadCachedURLsFile cache pingURLsCachePath w).1 = (object, Some e) ->
     NewPingURLs cache w = (Returned (∅, Some e), w) /\
     init cache w = (Panicked e, w)) /\
  (forall (cache : Config) (w : World),
     requests (NewPingURLs cache w).2 <> requests w ->
     ~ cache_there cache w \/
     exists c : CachedURLs,
       (ReadCachedURLsFile cache pingURLsCachePath w).1 = (Some c, None) /\
       clock w (readings w) - LastUpdated c > day).
Proof.
  split.
  - intros cache w object e Hthere Hread.
    pose proof (NewPingURLs_read_error _ _ _ _ Hthere Hread) as Hnew.
    split; [ done | by eapply init_error ].
  - intros cache w Hrequests.
    destruct (decide (cache_there cache w)) as [Hthere | Habsent]; [ | by left ].
    right.
    destruct (ReadCachedURLsFile cache pingURLsCachePath w) as [[object err] w0] eqn:Hread.
    apply (f_equal fst) in Hread. cbn [fst] in Hread.
    destruct err as [e | ].
    { rewrite (NewPingURLs_read_error _ _ _ _ Hthere Hread) in Hrequests. done. }
    destruct object as [c | ].
    + exists c. split; [ done | ].
      rewrite (NewPingURLs_read _ _ _ Hthere Hread) in Hrequests.
      destruct (Z.ltb_spec day (clock w (readings w) - LastUpdated c)); [ lia | done ].
    + exfalso. apply Hrequests.
      unfold NewPingURLs, cache_Exists. run_M.
      rewrite bool_decide_eq_true_2 by done. cbn [negb].
      pose proof (ReadCachedURLsFile_world cache pingURLsCachePath w) as Hworld.
      destruct (ReadCachedURLsFile _ _ w) as [[c0 err] w1].
      cbn in Hread, Hworld. by inversion Hread; subst.
Qed.

(** C10. [Cache] returns an error when marshalling the record fails or
    when writing the file fails.  When the resolution succeeds and [Cache]
    returns an error, [RefreshCache] returns the resolved map with that
    error; [NewPingURLs],
    whether the cache was absent or stale, returns the same, and [init]
    panics with the error. *)
Theorem RefreshCache_unwritable_cache_panics :
  (forall (p : PingURLs) (cache : Config) (path : string) (w : World) (e : error),
     let c := {| LastUpdated := clock w (readings w); PingURLs_of := p |} in
     (json_MarshalIndent c).2 = Some e \/
     (json_MarshalIndent c).2 = None /\
     write_fault w (filepath_Join (Path cache) path) = Some e ->
     (Cache p cache path w).1 = (c, Some e)) /\
  (forall (url : string) (cache : Config) (path : string) (w w1 w2 : World)
          (p : PingURLs) (c : CachedURLs) (e : error),
     ScrapePingURLs url w = ((p, None), w1) ->
     Cache p cache path w1 = ((c, Some e), w2) ->
     RefreshCache url cache path w = ((p, Some e), w2)) /\
  (forall (cache : Config) (w w' : World) (p : PingURLs) (e : error),
     ~ cache_there cache w ->
     RefreshCache manifestURL cache pingURLsCachePath w = ((p, Some e), w') ->
     NewPingURLs cache w = (Returned (p, Some e), w') /\
     init cache w = (Panicked e, w')) /\
  (forall (cache : Config) (w w' : World) (stale : CachedURLs) (p : PingURLs)
          (e : error),
     cache_there cache w ->
     (ReadCachedURLsFile cache pingURLsCachePath w).1 = (Some stale, None) ->
     clock w (readings w) - LastUpdated stale > day ->
     RefreshCache manifestURL cache pingURLsCachePath (time_Now w).2
       = ((p, Some e), w') ->
     NewPingURLs cache w = (Returned (p, Some e), w') /\
     init cache w = (Panicked e, w')).
Proof.
  split; [ | split; [ | split ] ].
  - intros p cache path w e c Hfails.
    unfold Cache, print, time_Now, cache_WriteFile. run_M. cbn. fold c.
    destruct (json_MarshalIndent c) as [bytes err]. cbn in Hfails |- *.
    destruct Hfails as [-> | [-> Hfault]]; cbn; [ reflexivity | ].
    by rewrite Hfault.
  - intros url cache path w w1 w2 p c e Hscrape Hcache.
    unfold RefreshCache. run_M. rewrite Hscrape, Hcache.
    destruct (Cache_run _ _ _ _ _ _ _ Hcache) as (-> & _). reflexivity.
  - intros cache w w' p e Habsent Hrefresh.
    assert (Hnew : NewPingURLs cache w = (Returned (p, Some e), w'))
      by (by rewrite (NewPingURLs_absent _ _ Habsent), Hrefresh).
    split; [ done | by eapply init_error ].
  - intros cache w w' stale p e Hthere Hread Hstale Hrefresh.
    assert (Hnew : NewPingURLs cache w = (Returned (p, Some e), w')).
    { rewrite (NewPingURLs_read _ _ _ Hthere Hread), Hrefresh.
      destruct (Z.ltb_spec day (clock w (readings w) - LastUpdated stale));
        [ done | lia ]. }
    split; [ done | by eapply init_error ].
Qed.

(** *** The command *)

Lemma is_validArg_In (arg : string) (known : list string) :
  is_validArg arg known = true <-> In arg known.
Proof.
  induction known as [ | validArg rest IH ]; cbn [is_validArg In].
  - split; [ discriminate | tauto ].
  - destruct (String.eqb_spec arg validArg) as [-> | Hne].
    + tauto.
    + rewrite IH. split; [ tauto | ]. intros [Heq | Hin]; congruence.
Qed.

Lemma validateArgs_unknown (cmd : Command) (args : list string) (arg : string) :
  In arg args -> ~ In arg (ValidArgs cmd) ->
  validateArgs cmd args = Some InvalidArguments.
Proof.
  intros Hin Hunknown.
  induction args as [ | a rest IH ]; [ destruct Hin | ].
  cbn [validateArgs].
  destruct (is_validArg a (ValidArgs cmd)) eqn:Hvalid; [ | reflexivity ].
  apply IH. destruct Hin as [-> | Hin]; [ | exact Hin ].
  apply is_validArg_In in Hvalid. contradiction.
Qed.

Lemma init_Returned (cache : Config) (w w1 : World) (pkg : Package) :
  init cache w = (Returned pkg, w1) ->
  NewPingURLs cache w = (Returned (pingURLs pkg, None), w1) /\
  ValidArgs (statusCmd pkg) = validArgs pkg /\
  validArgs pkg = map fst (range_order w1 (map_to_list (pingURLs pkg))).
Proof.
  unfold init, range. run_M.
  destruct (NewPingURLs cache w) as [[[p [e | ]] | e] w0]; intros Heq;
    inversion Heq; subst; clear Heq.
  done.
Qed.

(** C6, as the code has it. Once [init] has returned, an argument that is
    not among the known names makes the command return the validation
    error with the world as [init] left it: no service is pinged and nothing
    is printed.  The requests of the whole run are those of [init], and
    there are none when the cache is there, reads and is not stale. *)
Theorem unknown_service_is_refused_before_any_ping (cache : Config)
    (args : list string) (arg : string) (w w1 : World) (pkg : Package) :
  init cache w = (Returned pkg, w1) ->
  In arg args -> ~ In arg (validArgs pkg) ->
  execute pkg args w1 = (Returned (Some InvalidArguments), w1) /\
  run cache args w = (Returned (Some InvalidArguments), w1) /\
  (forall c : CachedURLs,
     cache_there cache w ->
     (ReadCachedURLsFile cache pingURLsCachePath w).1 = (Some c, None) ->
     clock w (readings w) - LastUpdated c <= day ->
     requests w1 = requests w).
Proof.
  intros Hinit Hin Hunknown.
  destruct (init_Returned _ _ _ _ Hinit) as (Hnew & Hvalid & _).
  assert (Hexecute : execute pkg args w1 = (Returned (Some InvalidArguments), w1)).
  { unfold execute, preRun.
    rewrite (validateArgs_unknown _ _ arg Hin); [ reflexivity | ].
    by rewrite Hvalid. }
  split; [ done | split ].
  - unfold run. run_M. by rewrite Hinit.
  - intros c Hthere Hread Hfresh.
    rewrite (NewPingURLs_read _ _ _ Hthere Hread) in Hnew.
    destruct (Z.ltb_spec day (clock w (readings w) - LastUpdated c)); [ lia | ].
    by inversion Hnew.
Qed.

(** *** The ping client *)


Lemma respbody_run (pkg : Package) (service : string) (w w1 : World)
    (servstat : PingResponse) (err : option error) :
  objectFromJSONURL json_Decode_PingResponse (ping_url pkg service)
    zero_PingResponse w = ((servstat, err), w1) ->
  respbody pkg service w =
    match err with
    | Some e => (Some e, w1)
    | None =>
        if Alive servstat then
          (None,
           (print (Coloured Green ("      " +:+ "Alive" +:+ LF))
              (print (Plain ("      " +:+ service +:+ LF)) w1).2).2)
        else (None, w1)
    end.
Proof.
  intros Hget. unfold respbody. fold (ping_url pkg service). run_M.
  rewrite Hget. destruct err; [ reflexivity | ].
  by destruct (Alive servstat).
Qed.



(** C9. After a ping that succeeded, [respbody] returns no error; when the
    report says alive it has printed the line of the service's name and
    then the green line Alive, and when the report says not alive it has
    printed nothing. *)
Theorem respbody_prints_Alive_or_nothing (pkg : Package) (service : string)
    (w w1 : World) (servstat : PingResponse) :
  objectFromJSONURL json_Decode_PingResponse (ping_url pkg service)
    zero_PingResponse w = ((servstat, None), w1) ->
  exists w2 : World,
    respbody pkg service w = (None, w2) /\
    stdout w2 = (stdout w ++ if Alive servstat then alive_lines service else [])%list /\
    requests w2 = (requests w ++ [ping_url pkg service])%list.
Proof.
  intros Hget.
  pose proof (objectFromJSONURL_requests json_Decode_PingResponse
                (ping_url pkg service) zero_PingResponse w) as (Hreq & _ & Hout).
  rewrite Hget in Hreq, Hout. cbn [snd] in Hreq, Hout.
  rewrite (respbody_run _ _ _ _ _ _ Hget).
  destruct (Alive servstat); eexists; (split; [ reflexivity | ]).
  - cbn. rewrite Hout, Hreq, <- app_assoc. done.
  - rewrite Hout, Hreq, app_nil_r. done.
Qed.

(** *** Further properties: strings and arguments *)

Lemma SplitN_dot_head_no_dot (s : string) : has_dot (SplitN_dot_head s) = false.
Proof.
  induction s as [ | c rest IH ]; [ reflexivity | ].
  cbn [SplitN_dot_head]. destruct (Ascii.eqb c ".") eqn:Hc; [ reflexivity | ].
  cbn [has_dot]. by rewrite Hc, IH.
Qed.

(** X1. [strings.SplitN(s, ".", 2)[0]] has no dot; it is [s] when [s] has
    none, and otherwise [s] is it, a dot, and a rest. *)
Theorem SplitN_dot_head_splits_at_first_dot (s : string) :
  has_dot (SplitN_dot_head s) = false /\
  if has_dot s
  then exists rest : string, s = SplitN_dot_head s +:+ "." +:+ rest
  else SplitN_dot_head s = s.
Proof.
  split; [ apply SplitN_dot_head_no_dot | ].
  induction s as [ | c rest IH ]; [ reflexivity | ].
  cbn [SplitN_dot_head has_dot].
  destruct (Ascii.eqb_spec c ".") as [-> | Hc]; cbn [orb].
  - by exists rest.
  - destruct (has_dot rest).
    + destruct IH as [tail IH]. exists tail. rewrite IH at 1. reflexivity.
    + by rewrite IH.
Qed.

Lemma validateArgs_nil_iff_all_valid_aux (cmd : Command) (args : list string) :
  (validateArgs cmd args = None <->
   Forall (fun arg => In arg (ValidArgs cmd)) args) /\
  (validateArgs cmd args = None \/ validateArgs cmd args = Some InvalidArguments).
Proof.
  induction args as [ | arg rest [IHiff IHor] ]; cbn [validateArgs].
  - split; [ split; [ constructor | reflexivity ] | by left ].
  - destruct (is_validArg arg (ValidArgs cmd)) eqn:Hvalid.
    + apply is_validArg_In in Hvalid. split; [ | exact IHor ].
      rewrite IHiff. split.
      * by constructor.
      * by inversion 1.
    + split; [ | by right ].
      split; [ discriminate | ].
      inversion 1 as [ | ? ? Hin _ ]; subst.
      apply is_validArg_In in Hin. congruence.
Qed.

(** X2. [validateArgs] returns nil exactly when every argument is among
    the command's valid arguments (so always for no arguments), and the
    one error it returns is the invalid-arguments error. *)
Theorem validateArgs_nil_iff_all_valid (cmd : Command) (args : list string) :
  (validateArgs cmd args = None <->
   Forall (fun arg => In arg (ValidArgs cmd)) args) /\
  (validateArgs cmd args = None \/ validateArgs cmd args = Some InvalidArguments).
Proof. apply validateArgs_nil_iff_all_valid_aux. Qed.

(** *** Further properties: the clock *)

(** X3. For any threshold that is a [Duration], [Expired] reads the clock
    once and returns true exactly when the age is more than the threshold
    and the threshold is not the largest [Duration]. *)
Theorem Expired_for_any_threshold (w : World) (c : CachedURLs) (d : Duration) :
  minDuration <= d <= maxDuration ->
  exists b : bool,
    Expired (Some c) d w = (Returned b, (time_Now w).2) /\
    (b = true <->
     d < maxDuration /\ clock w (readings w) - LastUpdated c > d).
Proof.
  intros [Hlo Hhi].
  exists (d <? time_Sub (clock w (readings w)) (LastUpdated c)). split.
  - reflexivity.
  - rewrite Z.ltb_lt. unfold time_Sub.
    destruct (Z.ltb_spec maxDuration (clock w (readings w) - LastUpdated c));
      [ lia | ].
    destruct (Z.ltb_spec (clock w (readings w) - LastUpdated c) minDuration); lia.
Qed.

(** *** Further properties: fetching *)

Lemma objectFromJSONURL_world {A : Type}
    (dec : Bytes -> A -> A * option error) (url : string) (object : A)
    (w : World) :
  (objectFromJSONURL dec url object w).2 = (http_Get url w).2.
Proof.
  unfold objectFromJSONURL, http_Get. run_M.
  destruct (network w (requests w) url) as [resp | e]; [ | done ].
  destruct (negb _); [ done | ].
  by destruct (dec _ _).
Qed.

Lemma objectFromJSONURL_only_requests {A : Type}
    (dec : Bytes -> A -> A * option error) (url : string) (object : A)
    (w : World) :
  only_requests w (objectFromJSONURL dec url object w).2.
Proof. rewrite objectFromJSONURL_world. by repeat split. Qed.

(** X4. [objectFromJSONURL] makes one request, whatever comes of it, and
    returns a nil error exactly when the request was answered, with
    status 200, the body decoded and the body closed without error. *)
Theorem objectFromJSONURL_nil_iff {A : Type}
    (dec : Bytes -> A -> A * option error) (url : string) (object : A)
    (w : World) :
  requests (objectFromJSONURL dec url object w).2 = (requests w ++ [url])%list /\
  only_requests w (objectFromJSONURL dec url object w).2 /\
  ((objectFromJSONURL dec url object w).1.2 = None <->
   exists resp : Response,
     network w (requests w) url = inl resp /\ StatusCode resp = 200 /\
     (dec (Body resp) object).2 = None /\ Body_Close resp = None).
Proof.
  split; [ by rewrite objectFromJSONURL_world | ].
  split; [ apply objectFromJSONURL_only_requests | ].
  unfold objectFromJSONURL, http_Get. run_M.
  destruct (network w (requests w) url) as [resp | e]; cbn.
  - destruct (Z.eqb_spec (StatusCode resp) 200) as [Hcode | Hcode]; cbn.
    + destruct (dec (Body resp) object) as [object' [e | ]] eqn:Hdec; cbn.
      * split; [ discriminate | ].
        intros (resp' & [= <-] & _ & Hnil & _). rewrite Hdec in Hnil. discriminate.
      * split.
        -- intros Hclose. exists resp. by rewrite Hdec.
        -- by intros (resp' & [= <-] & _ & _ & Hclose).
    + split; [ discriminate | ].
      by intros (resp' & [= <-] & Hok & _).
  - split; [ discriminate | ]. by intros (resp' & [=] & _).
Qed.

(** *** Further properties: the endpoint resolver *)

Lemma only_requests_trans (w w1 w2 : World) :
  only_requests w w1 -> only_requests w1 w2 -> only_requests w w2.
Proof.
  unfold only_requests. intros (? & ? & ? & ? & ? & ? & ?) (? & ? & ? & ? & ? & ? & ?).
  repeat split; congruence.
Qed.

Lemma scrape_references_frame (apiURLs : list string) (p : PingURLs) (w : World) :
  only_requests w (scrape_references apiURLs p w).2 /\
  exists made rest : list string,
    apiURLs = (made ++ rest)%list /\
    requests (scrape_references apiURLs p w).2 = (requests w ++ made)%list /\
    ((scrape_references apiURLs p w).1.2 = None -> rest = []).
Proof.
  revert p w. induction apiURLs as [ | apiURL apiURLs IH ]; intros p w.
  - split; [ by repeat split | ]. exists [], []. cbn. by rewrite app_nil_r.
  - destruct (objectFromJSONURL json_Decode_API apiURL zero_API w)
      as [[reference err] w1] eqn:Hget.
    pose proof (objectFromJSONURL_only_requests json_Decode_API apiURL zero_API w)
      as Hframe.
    pose proof (objectFromJSONURL_world json_Decode_API apiURL zero_API w) as Hworld.
    rewrite Hget in Hframe, Hworld. cbn [snd] in Hframe, Hworld.
    assert (Hreq : requests w1 = (requests w ++ [apiURL])%list) by (by rewrite Hworld).
    rewrite (scrape_references_cons _ _ _ _ _ _ _ Hget).
    destruct err as [e | ].
    { split; [ done | ]. exists [apiURL], apiURLs. by repeat split. }
    destruct (scrape_entries reference (Entries reference) p) as [p' [e | ]].
    { split; [ done | ]. exists [apiURL], apiURLs. by repeat split. }
    destruct (IH p' w1) as (Hrest & made & rest & Hsplit & Hmade & Hnil).
    split; [ by eapply only_requests_trans | ].
    exists (apiURL :: made), rest. split; [ by rewrite Hsplit | ].
    split; [ | done ].
    by rewrite Hmade, Hreq, <- app_assoc.
Qed.

Lemma ScrapePingURLs_frame (url : string) (w : World) :
  files (ScrapePingURLs url w).2 = files w /\
  clock (ScrapePingURLs url w).2 = clock w /\
  readings (ScrapePingURLs url w).2 = readings w /\
  stdout (ScrapePingURLs url w).2 =
    (stdout w ++ [ Coloured Yellow ("Scraping ping URLs from " +:+ url) ])%list /\
  exists made : list string,
    requests (ScrapePingURLs url w).2 = (requests w ++ url :: made)%list.
Proof.
  set (w0 := (print (Coloured Yellow ("Scraping ping URLs from " +:+ url)) w).2).
  destruct (objectFromJSONURL json_Decode_manifest url ∅ w0)
    as [[allAPIs err] w1] eqn:Hget.
  pose proof (objectFromJSONURL_only_requests json_Decode_manifest url ∅ w0)
    as (_ & Hfiles & _ & Hclock & Hreadings & Horder & Hout).
  pose proof (objectFromJSONURL_world json_Decode_manifest url ∅ w0) as Hworld.
  rewrite Hget in Hfiles, Hclock, Hreadings, Horder, Hout, Hworld.
  cbn [snd] in Hfiles, Hclock, Hreadings, Horder, Hout, Hworld.
  assert (Hreq : requests w1 = (requests w ++ [url])%list) by (by rewrite Hworld).
  rewrite (ScrapePingURLs_run _ _ _ _ _ Hget).
  destruct err as [e | ].
  { cbn [snd]. split_and!; try done. by exists []. }
  destruct (scrape_references_frame (map snd (range_order w1 (map_to_list allAPIs)))
              ∅ w1) as ((_ & Hfiles' & _ & Hclock' & Hreadings' & _ & Hout')
                        & made & rest & _ & Hmade & _).
  split_and!.
  - by rewrite Hfiles', Hfiles.
  - by rewrite Hclock', Hclock.
  - by rewrite Hreadings', Hreadings.
  - by rewrite Hout', Hout.
  - exists made. by rewrite Hmade, Hreq, <- app_assoc.
Qed.

(** X5. Whatever comes of it, [ScrapePingURLs] prints its one yellow line,
    requests the manifest first, and leaves the files and the clock as
    they were. *)
Theorem ScrapePingURLs_effects (url : string) (w : World) :
  files (ScrapePingURLs url w).2 = files w /\
  clock (ScrapePingURLs url w).2 = clock w /\
  readings (ScrapePingURLs url w).2 = readings w /\
  stdout (ScrapePingURLs url w).2 =
    (stdout w ++ [ Coloured Yellow ("Scraping ping URLs from " +:+ url) ])%list /\
  exists made : list string,
    requests (ScrapePingURLs url w).2 = (requests w ++ url :: made)%list.
Proof. apply ScrapePingURLs_frame. Qed.

(** X6. A resolution that succeeds has requested the manifest and then
    each of its references once, in the order the runtime ranged over the
    manifest, and nothing else. *)
Theorem ScrapePingURLs_requests_every_reference (url : string) (w w1 w2 : World)
    (allAPIs : gmap string string) (p : PingURLs) :
  objectFromJSONURL json_Decode_manifest url ∅
    (print (Coloured Yellow ("Scraping ping URLs from " +:+ url)) w).2
    = ((allAPIs, None), w1) ->
  ScrapePingURLs url w = ((p, None), w2) ->
  requests w2 =
    (requests w ++ url :: map snd (range_order w (map_to_list allAPIs)))%list.
Proof.
  intros Hget Hrun.
  pose proof (objectFromJSONURL_only_requests json_Decode_manifest url ∅
                (print (Coloured Yellow ("Scraping ping URLs from " +:+ url)) w).2)
    as (_ & _ & _ & _ & _ & Horder & _).
  pose proof (objectFromJSONURL_world json_Decode_manifest url ∅
                (print (Coloured Yellow ("Scraping ping URLs from " +:+ url)) w).2)
    as Hworld.
  rewrite Hget in Horder, Hworld. cbn [snd] in Horder, Hworld.
  assert (Hreq : requests w1 = (requests w ++ [url])%list) by (by rewrite Hworld).
  rewrite (ScrapePingURLs_run _ _ _ _ _ Hget) in Hrun.
  destruct (scrape_references_frame (map snd (range_order w1 (map_to_list allAPIs)))
              ∅ w1) as (_ & made & rest & Hsplit & Hmade & Hnil).
  rewrite Hrun in Hmade, Hnil. cbn [fst snd] in Hmade, Hnil.
  rewrite (Hnil eq_refl), app_nil_r in Hsplit.
  rewrite Hmade, Hreq, <- Hsplit, <- app_assoc. cbn [range_order] in Horder.
  by rewrite Horder.
Qed.

Lemma scrape_entries_names (reference : API) (entries : list APIEntry)
    (p : PingURLs) :
  names_without_dot p ->
  names_without_dot (scrape_entries reference entries p).1.
Proof.
  intros Hp. induction entries as [ | entry rest IH ]; [ done | ].
  cbn [scrape_entries]. destruct (String.eqb _ _); [ | done ].
  destruct (url_Parse _) as [u | e]; [ | done ].
  cbn [fst]. intros k v. rewrite lookup_insert.
  case_decide as Hk; [ | by apply Hp ].
  intros _. subst k. apply SplitN_dot_head_no_dot.
Qed.

Lemma scrape_references_names (apiURLs : list string) (p : PingURLs) (w : World) :
  names_without_dot p ->
  names_without_dot (scrape_references apiURLs p w).1.1.
Proof.
  revert p w. induction apiURLs as [ | apiURL apiURLs IH ]; intros p w Hp; [ done | ].
  destruct (objectFromJSONURL json_Decode_API apiURL zero_API w)
    as [[reference err] w1] eqn:Hget.
  rewrite (scrape_references_cons _ _ _ _ _ _ _ Hget).
  destruct err as [e | ]; [ done | ].
  pose proof (scrape_entries_names reference (Entries reference) p Hp) as Hp'.
  destruct (scrape_entries reference (Entries reference) p) as [p' [e | ]];
    [ done | ].
  by apply IH.
Qed.

(** X7. No service name in the map [ScrapePingURLs] returns has a dot in
    it, whether or not an error comes with the map. *)
Theorem ScrapePingURLs_names_have_no_dot (url : string) (w : World)
    (k v : string) :
  (ScrapePingURLs url w).1.1 !! k = Some v -> has_dot k = false.
Proof.
  destruct (objectFromJSONURL json_Decode_manifest url ∅
              (print (Coloured Yellow ("Scraping ping URLs from " +:+ url)) w).2)
    as [[allAPIs err] w1] eqn:Hget.
  rewrite (ScrapePingURLs_run _ _ _ _ _ Hget).
  destruct err as [e | ]; [ cbn [fst]; by rewrite lookup_empty | ].
  apply scrape_references_names. intros k' v'. by rewrite lookup_empty.
Qed.

Lemma scrape_entries_size (reference : API) (entries : list APIEntry)
    (p : PingURLs) :
  (size (scrape_entries reference entries p).1 <= S (size p))%nat.
Proof.
  induction entries as [ | entry rest IH ];
    [ cbn [scrape_entries fst]; apply Nat.le_succ_diag_r | ].
  cbn [scrape_entries]. destruct (String.eqb _ _); [ | done ].
  destruct (url_Parse _) as [u | e]; [ | cbn [fst]; apply Nat.le_succ_diag_r ].
  cbn [fst]. rewrite map_size_insert.
  destruct (p !! _); [ apply Nat.le_succ_diag_r | reflexivity ].
Qed.

Lemma scrape_references_size (apiURLs : list string) (p : PingURLs) (w : World) :
  (size (scrape_references apiURLs p w).1.1 <= size p + length apiURLs)%nat.
Proof.
  revert p w. induction apiURLs as [ | apiURL apiURLs IH ]; intros p w.
  { cbn [scrape_references fst length]. unfold ret. cbn [fst].
    rewrite Nat.add_0_r. reflexivity. }
  destruct (objectFromJSONURL json_Decode_API apiURL zero_API w)
    as [[reference err] w1] eqn:Hget.
  rewrite (scrape_references_cons _ _ _ _ _ _ _ Hget).
  cbn [length].
  destruct err as [e | ]; [ cbn [fst]; lia | ].
  pose proof (scrape_entries_size reference (Entries reference) p) as Hstep.
  destruct (scrape_entries reference (Entries reference) p) as [p' [e | ]];
    cbn [fst] in *; [ lia | ].
  specialize (IH p' w1). lia.
Qed.

(** X8. The map [ScrapePingURLs] returns has at most one endpoint for each
    reference the runtime ranged over: references without a ping entry
    add none, and references of one host share one. *)
Theorem ScrapePingURLs_size_bound (url : string) (w w1 : World)
    (allAPIs : gmap string string) :
  objectFromJSONURL json_Decode_manifest url ∅
    (print (Coloured Yellow ("Scraping ping URLs from " +:+ url)) w).2
    = ((allAPIs, None), w1) ->
  (size (ScrapePingURLs url w).1.1 <=
   length (range_order w1 (map_to_list allAPIs)))%nat.
Proof.
  intros Hget. rewrite (ScrapePingURLs_run _ _ _ _ _ Hget).
  pose proof (scrape_references_size
                (map snd (range_order w1 (map_to_list allAPIs))) ∅ w1) as Hsize.
  rewrite map_size_empty, length_map in Hsize. exact Hsize.
Qed.

(** X9. A reference with a ping entry whose base URL does not parse ends
    the resolution with the parse error: the map is as it was before this
    reference, and the references after it are not requested. *)
Theorem scrape_references_stops_at_bad_base_url (apiURL : string)
    (rest : list string) (p : PingURLs) (w w1 : World) (reference : API)
    (pre post : list APIEntry) (entry : APIEntry) (e : error) :
  objectFromJSONURL json_Decode_API apiURL zero_API w = ((reference, None), w1) ->
  Entries reference = (pre ++ entry :: post)%list ->
  no_ping pre -> Name entry = "ping" ->
  url_Parse (BaseURL reference) = inr e ->
  scrape_references (apiURL :: rest) p w = ((p, Some e), w1) /\
  requests w1 = (requests w ++ [apiURL])%list.
Proof.
  intros Hget Hentries Hpre Hname Hparse.
  pose proof (objectFromJSONURL_world json_Decode_API apiURL zero_API w) as Hworld.
  rewrite Hget in Hworld. cbn [snd] in Hworld.
  split; [ | by rewrite Hworld ].
  rewrite (scrape_references_cons _ _ _ _ _ _ _ Hget), Hentries.
  replace (scrape_entries reference (pre ++ entry :: post) p) with (p, Some e);
    [ reflexivity | ].
  clear Hentries. induction Hpre as [ | e0 pre' Hne _ IH ]; cbn [app scrape_entries].
  - apply String.eqb_eq in Hname. by rewrite Hname, Hparse.
  - apply String.eqb_neq in Hne. by rewrite Hne.
Qed.

(** *** Further properties: the cache store *)

Lemma NewPingURLs_read_nil (cache : Config) (w : World) :
  cache_there cache w ->
  (ReadCachedURLsFile cache pingURLsCachePath w).1 = (None, None) ->
  NewPingURLs cache w = (Panicked NilDereference, w).
Proof.
  intros Hthere Hread. unfold NewPingURLs, cache_Exists. run_M.
  rewrite bool_decide_eq_true_2 by done. cbn [negb].
  pose proof (ReadCachedURLsFile_world cache pingURLsCachePath w) as Hworld.
  destruct (ReadCachedURLsFile _ _ w) as [[c0 err] w0].
  cbn in Hread, Hworld. by inversion Hread; subst.
Qed.

(** X10. When the cache file is there and unmarshals to a nil record with
    no error, as the JSON null does, [NewPingURLs] panics on the nil
    pointer in [Expired], and so does [init]; nothing is requested. *)
Theorem NewPingURLs_null_cache_panics (cache : Config) (w : World) :
  cache_there cache w ->
  (ReadCachedURLsFile cache pingURLsCachePath w).1 = (None, None) ->
  NewPingURLs cache w = (Panicked NilDereference, w) /\
  init cache w = (Panicked NilDereference, w).
Proof.
  intros Hthere Hread.
  pose proof (NewPingURLs_read_nil _ _ Hthere Hread) as Hnew.
  split; [ done | ]. unfold init. run_M. by rewrite Hnew.
Qed.

(** X11. When the cache file is there, reads, and is not older than 24
    hours (24 hours exactly included), [NewPingURLs] returns the cached
    map with no error after reading the clock once: nothing is requested,
    written or printed. *)
Theorem NewPingURLs_fresh_cache_hit (cache : Config) (w : World) (c : CachedURLs) :
  cache_there cache w ->
  (ReadCachedURLsFile cache pingURLsCachePath w).1 = (Some c, None) ->
  clock w (readings w) - LastUpdated c <= day ->
  NewPingURLs cache w = (Returned (PingURLs_of c, None), (time_Now w).2) /\
  requests (NewPingURLs cache w).2 = requests w /\
  files (NewPingURLs cache w).2 = files w /\
  stdout (NewPingURLs cache w).2 = stdout w.
Proof.
  intros Hthere Hread Hfresh.
  rewrite (NewPingURLs_read _ _ _ Hthere Hread).
  by destruct (Z.ltb_spec day (clock w (readings w) - LastUpdated c)); [ lia | ].
Qed.

Lemma Cache_success (p : PingURLs) (cache : Config) (path : string)
    (w w1 : World) (c : CachedURLs) :
  Cache p cache path w = ((c, None), w1) ->
  c = {| LastUpdated := clock w (readings w); PingURLs_of := p |} /\
  files w1 = <[filepath_Join (Path cache) path := Content (json_MarshalIndent c).1]>
               (files w) /\
  requests w1 = requests w /\
  clock w1 = clock w /\ readings w1 = S (readings w) /\
  stdout w1 =
    (stdout w ++ [ Coloured Magenta
                     ("Writing cache file " +:+ filepath_Join (Path cache) path) ])%list.
Proof.
  unfold Cache, print, time_Now, cache_WriteFile. run_M. cbn.
  destruct (json_MarshalIndent _) as [bytes [e | ]] eqn:Hmarshal; cbn;
    [ discriminate | ].
  destruct (write_fault w _) as [e | ]; [ discriminate | ].
  intros Heq; inversion Heq; subst; clear Heq.
  rewrite Hmarshal. by cbn.
Qed.

(** X12. [Cache], when it returns no error, has put the bytes of the
    record at its path, replacing what was there, and has left every
    other file as it was; it has printed its one magenta line and
    requested nothing. *)
Theorem Cache_replaces_only_its_file (p : PingURLs) (cache : Config)
    (path : string) (w w1 : World) (c : CachedURLs) :
  Cache p cache path w = ((c, None), w1) ->
  files w1 !! filepath_Join (Path cache) path
    = Some (Content (json_MarshalIndent c).1) /\
  (forall other : string,
     other <> filepath_Join (Path cache) path ->
     files w1 !! other = files w !! other) /\
  PingURLs_of c = p /\ LastUpdated c = clock w (readings w) /\
  requests w1 = requests w /\
  stdout w1 =
    (stdout w ++ [ Coloured Magenta
                     ("Writing cache file " +:+ filepath_Join (Path cache) path) ])%list.
Proof.
  intros Hcache.
  destruct (Cache_success _ _ _ _ _ _ Hcache) as (Hc & Hfiles & Hreq & _ & _ & Hout).
  split_and!; try done.
  - by rewrite Hfiles, lookup_insert_eq.
  - intros other Hother. by rewrite Hfiles, lookup_insert_ne.
  - by rewrite Hc.
  - by rewrite Hc.
Qed.

Lemma RefreshCache_success (url : string) (cache : Config) (path : string)
    (w w1 : World) (p : PingURLs) :
  RefreshCache url cache path w = ((p, None), w1) ->
  files w1 =
    <[filepath_Join (Path cache) path :=
        Content (json_MarshalIndent
                   {| LastUpdated := clock w (readings w); PingURLs_of := p |}).1]>
      (files w) /\
  clock w1 = clock w /\ readings w1 = S (readings w) /\
  requests w1 = requests (ScrapePingURLs url w).2.
Proof.
  unfold RefreshCache. run_M.
  pose proof (ScrapePingURLs_frame url w) as (Hfiles & Hclock & Hreadings & _ & _).
  destruct (ScrapePingURLs url w) as [[p0 [e | ]] w0]; [ discriminate | ].
  cbn [snd] in Hfiles, Hclock, Hreadings.
  destruct (Cache p0 cache path w0) as [[c err] w2] eqn:Hcache.
  intros Heq; inversion Heq; subst; clear Heq.
  destruct (Cache_success _ _ _ _ _ _ Hcache) as (Hc & Hw & Hreq & Hcl & Hrd & _).
  rewrite Hc in *. cbn [PingURLs_of snd]. rewrite Hclock, Hreadings in Hw.
  split_and!; congruence.
Qed.

(** X13. After a [RefreshCache] that returned no error, when encoding/json
    reads back from the bytes it made a record with the same map, and the
    next reading of the clock is within 24 hours of that record's time,
    [NewPingURLs] returns the refreshed map from the cache and requests
    nothing. *)
Theorem RefreshCache_then_NewPingURLs (cache : Config) (w w1 : World)
    (p : PingURLs) (c' : CachedURLs) :
  RefreshCache manifestURL cache pingURLsCachePath w = ((p, None), w1) ->
  json_Unmarshal_CachedURLs
    (json_MarshalIndent {| LastUpdated := clock w (readings w); PingURLs_of := p |}).1
    None = (Some c', None) ->
  PingURLs_of c' = p ->
  clock w1 (readings w1) - LastUpdated c' <= day ->
  (NewPingURLs cache w1).1 = Returned (p, None) /\
  requests (NewPingURLs cache w1).2 = requests w1.
Proof.
  intros Hrefresh Hback Hsame Hfresh.
  destruct (RefreshCache_success _ _ _ _ _ _ Hrefresh) as (Hfiles & _).
  assert (Hthere : cache_there cache w1).
  { unfold cache_there. rewrite Hfiles, lookup_insert_eq. by eexists. }
  assert (Hread : (ReadCachedURLsFile cache pingURLsCachePath w1).1 = (Some c', None)).
  { unfold ReadCachedURLsFile, cache_ReadFile. run_M.
    rewrite Hfiles, lookup_insert_eq. by rewrite Hback. }
  rewrite (NewPingURLs_read _ _ _ Hthere Hread).
  destruct (Z.ltb_spec day (clock w1 (readings w1) - LastUpdated c')); [ lia | ].
  by rewrite Hsame.
Qed.

(** X14. Whenever [NewPingURLs] returns a map with no error, the cache
    file is there afterwards: it was read, or it has just been written. *)
Theorem NewPingURLs_leaves_the_cache_there (cache : Config) (w w' : World)
    (p : PingURLs) :
  NewPingURLs cache w = (Returned (p, None), w') ->
  cache_there cache w'.
Proof.
  intros Hnew.
  assert (Hwritten : forall w0 w1 : World,
            RefreshCache manifestURL cache pingURLsCachePath w0 = ((p, None), w1) ->
            cache_there cache w1).
  { intros w0 w1 Hrefresh.
    destruct (RefreshCache_success _ _ _ _ _ _ Hrefresh) as (Hfiles & _).
    unfold cache_there. rewrite Hfiles, lookup_insert_eq. by eexists. }
  destruct (decide (cache_there cache w)) as [Hthere | Habsent].
  - destruct (ReadCachedURLsFile cache pingURLsCachePath w)
      as [[object err] w0] eqn:Hread.
    apply (f_equal fst) in Hread. cbn [fst] in Hread.
    destruct err as [e | ].
    { rewrite (NewPingURLs_read_error _ _ _ _ Hthere Hread) in Hnew. discriminate. }
    destruct object as [c | ].
    + rewrite (NewPingURLs_read _ _ _ Hthere Hread) in Hnew.
      destruct (day <? _).
      * apply (Hwritten (time_Now w).2).
        destruct (RefreshCache _ _ _ _) as [r w1]. by inversion Hnew.
      * by inversion Hnew.
    + rewrite (NewPingURLs_read_nil _ _ Hthere Hread) in Hnew. discriminate.
  - rewrite (NewPingURLs_absent _ _ Habsent) in Hnew.
    apply (Hwritten w).
    destruct (RefreshCache _ _ _ _) as [r w1]. by inversion Hnew.
Qed.

(** *** Further properties: the command and the pings *)

Lemma respbody_frame (pkg : Package) (service : string) (w : World) :
  requests (respbody pkg service w).2 = (requests w ++ [ping_url pkg service])%list /\
  files (respbody pkg service w).2 = files w.
Proof.
  destruct (objectFromJSONURL json_Decode_PingResponse (ping_url pkg service)
              zero_PingResponse w) as [[servstat err] w1] eqn:Hget.
  pose proof (objectFromJSONURL_world json_Decode_PingResponse
                (ping_url pkg service) zero_PingResponse w) as Hworld.
  rewrite Hget in Hworld. cbn [snd] in Hworld.
  rewrite (respbody_run _ _ _ _ _ _ Hget).
  destruct err as [e | ]; [ by rewrite Hworld | ].
  destruct (Alive servstat); by rewrite Hworld.
Qed.

Lemma status_services_Returned (pkg : Package) (args : list string)
    (w w' : World) (r : option error) :
  status_services pkg args w = (Returned r, w') ->
  r = None /\
  requests w' = (requests w ++ map (ping_url pkg) args)%list /\
  files w' = files w.
Proof.
  revert w. induction args as [ | service rest IH ]; intros w.
  - cbn. unfold ret. intros Heq; inversion Heq; subst. by rewrite app_nil_r.
  - cbn [status_services]. run_M.
    pose proof (respbody_frame pkg service w) as [Hreq Hfiles].
    destruct (respbody pkg service w) as [[e | ] w1]; [ discriminate | ].
    cbn [snd] in Hreq, Hfiles. intros Hrest.
    destruct (IH _ Hrest) as (-> & Hreq' & Hfiles').
    split_and!; [ done | | congruence ].
    by rewrite Hreq', Hreq, <- app_assoc.
Qed.

Lemma status_is_status_services (pkg : Package) (cmd : Command)
    (args : list string) (w : World) :
  status pkg cmd args w = status_services pkg (pinged pkg args) w.
Proof. unfold status. by destruct args. Qed.

(** X15. [status] never returns an error: when it returns it returns nil,
    having pinged each service once, in order, those given or, when none
    is given, all the valid arguments; a ping that fails is a panic. *)
Theorem status_returns_nil_after_every_ping (pkg : Package) (cmd : Command)
    (args : list string) (w w' : World) (r : option error) :
  status pkg cmd args w = (Returned r, w') ->
  r = None /\
  requests w' = (requests w ++ map (ping_url pkg) (pinged pkg args))%list /\
  files w' = files w.
Proof.
  rewrite status_is_status_services. apply status_services_Returned.
Qed.

(** X16. The one error the command returns is the validation error, and
    it returns it exactly when some argument is not valid, leaving the
    world untouched. *)
Theorem execute_returns_only_the_validation_error (pkg : Package)
    (args : list string) (w w' : World) (e : error) :
  execute pkg args w = (Returned (Some e), w') <->
  e = InvalidArguments /\ w' = w /\
  ~ Forall (fun arg => In arg (ValidArgs (statusCmd pkg))) args.
Proof.
  unfold execute, preRun.
  destruct (validateArgs_nil_iff_all_valid_aux (statusCmd pkg) args) as [Hiff Hor].
  destruct (validateArgs (statusCmd pkg) args) as [e0 | ] eqn:Hvalidate.
  - destruct Hor as [Hnil | Herr]; [ discriminate | ].
    injection Herr as ->. unfold ret. split.
    + intros Heq; inversion Heq; subst. split_and!; try done.
      intros Hall. apply Hiff in Hall. discriminate.
    + by intros (-> & -> & _).
  - split.
    + intros Hstatus.
      rewrite status_is_status_services in Hstatus.
      by destruct (status_services_Returned _ _ _ _ _ Hstatus) as ([=] & _).
    + intros (_ & _ & Hnot). exfalso. apply Hnot. by apply Hiff.
Qed.

(** X17. When the runtime ranges over the map in some order of its
    entries, the valid arguments [init] leaves are the keys of the map of
    ping URLs, each once, and they are the command's [ValidArgs]. *)
Theorem init_validArgs_are_the_keys (cache : Config) (w w1 : World)
    (pkg : Package) :
  init cache w = (Returned pkg, w1) ->
  range_order w1 (map_to_list (pingURLs pkg)) ≡ₚ map_to_list (pingURLs pkg) ->
  (forall k : string, In k (validArgs pkg) <-> is_Some (pingURLs pkg !! k)) /\
  NoDup (validArgs pkg) /\
  ValidArgs (statusCmd pkg) = validArgs pkg.
Proof.
  intros Hinit Hperm.
  destruct (init_Returned _ _ _ _ Hinit) as (_ & Hcmd & Hvalid).
  split_and!; [ | | done ].
  - intros k. rewrite Hvalid, <- list_elem_of_In.
    change (map fst ?l) with (l.*1). rewrite Hperm.
    rewrite list_elem_of_fmap. split.
    + intros ([k' v] & -> & Hin). apply elem_of_map_to_list in Hin. by eexists.
    + intros [v Hv]. exists (k, v). split; [ done | ]. by apply elem_of_map_to_list.
  - rewrite Hvalid. change (map fst ?l) with (l.*1). rewrite Hperm.
    apply NoDup_fst_map_to_list.
Qed.

(** X18. A ping answered with status 200 and a body that decodes, whose
    body then fails to close, is an error of [respbody] all the same: the
    close error is returned and nothing is printed, alive or not. *)
Theorem respbody_close_error_is_an_error (pkg : Package) (service : string)
    (w : World) (resp : Response) (servstat : PingResponse) (e : error) :
  network w (requests w) (ping_url pkg service) = inl resp ->
  StatusCode resp = 200 ->
  json_Decode_PingResponse (Body resp) zero_PingResponse = (servstat, None) ->
  Body_Close resp = Some e ->
  respbody pkg service w = (Some e, (http_Get (ping_url pkg service) w).2) /\
  stdout (respbody pkg service w).2 = stdout w.
Proof.
  intros Hresp Hcode Hdecode Hclose.
  assert (Hget : objectFromJSONURL json_Decode_PingResponse (ping_url pkg service)
                   zero_PingResponse w
                 = ((servstat, Some e), (http_Get (ping_url pkg service) w).2)).
  { unfold objectFromJSONURL. run_M. unfold http_Get at 1. cbn [fst snd].
    rewrite Hresp, Hcode, Hdecode, Hclose. reflexivity. }
  rewrite (respbody_run _ _ _ _ _ _ Hget). by split.
Qed.

(** *** Further properties: package [expandscope] *)

Lemma print_scopes_printed (scopes : list string) (w : ScopeWorld) :
  printed (print_scopes scopes w) =
    (printed w ++ map (fun s => Plain (s +:+ LF)) scopes)%list /\
  auth_calls (print_scopes scopes w) = auth_calls w /\
  auth_service (print_scopes scopes w) = auth_service w.
Proof.
  revert w. induction scopes as [ | s rest IH ]; intros w.
  - cbn. by rewrite app_nil_r.
  - cbn [print_scopes map]. destruct (IH (scope_print (s +:+ LF) w)) as (-> & -> & ->).
    cbn. by rewrite <- app_assoc.
Qed.

(** X19. [expandScope] calls the auth service once, unauthenticated, with
    the scopes it was given.  When the service fails it returns false
    and prints the one error line; when the service answers it returns
    true and prints the scopes of the answer, one a line, in order. *)
Theorem expandScope_prints_the_answer (inputScopes : list string)
    (w : ScopeWorld) :
  auth_calls (expandScope inputScopes w).2 =
    (auth_calls w ++ [ {| Authenticate := false; Scopes := inputScopes |} ])%list /\
  match auth_service w (auth_calls w)
          {| Authenticate := false; Scopes := inputScopes |} with
  | inr err =>
      (expandScope inputScopes w).1 = false /\
      printed (expandScope inputScopes w).2 =
        (printed w ++ [ Plain ("Error expanding scopes: " +:+ err +:+ LF) ])%list
  | inl scopes =>
      (expandScope inputScopes w).1 = true /\
      printed (expandScope inputScopes w).2 =
        (printed w ++ map (fun s => Plain (s +:+ LF)) scopes)%list
  end.
Proof.
  unfold expandScope.
  destruct (auth_service w (auth_calls w) _) as [scopes | err]; cbn [fst snd].
  - destruct (print_scopes_printed scopes
                {| auth_service := auth_service w;
                   auth_calls := auth_calls w ++ [ {| Authenticate := false;
                                                      Scopes := inputScopes |} ];
                   printed := printed w |}) as (-> & -> & _).
    done.
  - done.
Qed.

(** X20. [Execute] returns, and does not panic, exactly when the
    arguments hold a list of strings under <scope> and a bool under
    expand-scope; a missing <scope> is a panic even with the flag off. *)
Theorem Execute_returns_iff_arguments_typed (context : ExtContext)
    (w : ScopeWorld) :
  (exists ok : bool, (Execute context w).1 = Returned ok) <->
  (exists inputScopes : list string,
     Arguments_of context !! "<scope>" = Some (ArgStrings inputScopes)) /\
  (exists flag : bool,
     Arguments_of context !! "expand-scope" = Some (ArgBool flag)).
Proof.
  unfold Execute.
  destruct (Arguments_of context !! "<scope>") as [[l | b | ] | ].
  2-4: split; [ by intros [ok [=]] | by intros [[l' [=]] _] ].
  destruct (Arguments_of context !! "expand-scope") as [[l' | [ | ] | ] | ].
  1,4,5: split; [ by intros [ok [=]] | by intros [_ [flag [=]]] ].
  - destruct (expandScope l w) as [ok w']. split; [ | by exists ok ].
    intros _. split; by eexists.
  - split; [ | by exists true ]. intros _. split; by eexists.
Qed.

(** X21. With the flag off [Execute] returns true and does nothing: the
    service is not called and nothing is printed.  With the flag on it
    returns what [expandScope] returns for the scopes, which is false
    exactly when the service failed. *)
Theorem Execute_follows_the_flag (context : ExtContext) (w : ScopeWorld)
    (inputScopes : list string) (flag : bool) :
  Arguments_of context !! "<scope>" = Some (ArgStrings inputScopes) ->
  Arguments_of context !! "expand-scope" = Some (ArgBool flag) ->
  if flag
  then (Execute context w).2 = (expandScope inputScopes w).2 /\
       (Execute context w).1 = Returned (expandScope inputScopes w).1 /\
       ((Execute context w).1 = Returned false <->
        exists err : string,
          auth_service w (auth_calls w)
            {| Authenticate := false; Scopes := inputScopes |} = inr err)
  else Execute context w = (Returned true, w).
Proof.
  intros Hscope Hflag. unfold Execute. rewrite Hscope, Hflag.
  destruct flag; [ | reflexivity ].
  unfold expandScope.
  destruct (auth_service w (auth_calls w) _) as [scopes | err]; cbn [fst snd].
  - split_and!; try done. split; [ discriminate | by intros [err [=]] ].
  - split_and!; try done. split; [ by exists err | done ].
Qed.

(** *** Further properties: start-up *)

(** X22. When the cache file is there, reads and is older than 24 hours,
    and [NewPingURLs] returns a map with no error, the map is the one just
    resolved and the cache file now holds the bytes of that map stamped
    with the second reading of the clock, the first being [Expired]'s. *)
Theorem NewPingURLs_stale_cache_is_rewritten (cache : Config) (w w' : World)
    (stale : CachedURLs) (p : PingURLs) :
  cache_there cache w ->
  (ReadCachedURLsFile cache pingURLsCachePath w).1 = (Some stale, None) ->
  clock w (readings w) - LastUpdated stale > day ->
  NewPingURLs cache w = (Returned (p, None), w') ->
  (ScrapePingURLs manifestURL (time_Now w).2).1 = (p, None) /\
  files w' !! filepath_Join (Path cache) pingURLsCachePath =
    Some (Content (json_MarshalIndent
                     {| LastUpdated := clock w (S (readings w));
                        PingURLs_of := p |}).1).
Proof.
  intros Hthere Hread Hstale Hnew.
  rewrite (NewPingURLs_read _ _ _ Hthere Hread) in Hnew.
  destruct (Z.ltb_spec day (clock w (readings w) - LastUpdated stale)); [ | lia ].
  destruct (RefreshCache manifestURL cache pingURLsCachePath (time_Now w).2)
    as [r w1] eqn:Hrefresh.
  inversion Hnew; subst; clear Hnew.
  destruct (RefreshCache_success _ _ _ _ _ _ Hrefresh) as (Hfiles & _).
  split.
  - revert Hrefresh. unfold RefreshCache. run_M.
    destruct (ScrapePingURLs manifestURL (time_Now w).2) as [[p0 [e | ]] w0];
      [ discriminate | ].
    destruct (Cache p0 cache pingURLsCachePath w0) as [[c err] w2] eqn:Hcache.
    intros Heq; inversion Heq; subst; clear Heq.
    destruct (Cache_success _ _ _ _ _ _ Hcache) as (-> & _). reflexivity.
  - rewrite Hfiles, lookup_insert_eq. reflexivity.
Qed.

Lemma append_empty (s : string) : s +:+ "" = s.
Proof.
  induction s as [ | c s IH ]; [ reflexivity | ].
  change (String c (s +:+ "") = String c s). by rewrite IH.
Qed.

Lemma append_append (a b c : string) : (a +:+ b) +:+ c = a +:+ (b +:+ c).
Proof.
  induction a as [ | x a IH ]; [ reflexivity | ].
  change (String x ((a +:+ b) +:+ c) = String x (a +:+ (b +:+ c))). by rewrite IH.
Qed.

Lemma fold_left_usage (validArgs : list string) (use : string) :
  fold_left (fun use validArg => use +:+ " [" +:+ validArg +:+ "]") validArgs use
  = use +:+ usage_line validArgs.
Proof.
  revert use. induction validArgs as [ | validArg rest IH ]; intros use;
    cbn [fold_left usage_line].
  - by rewrite append_empty.
  - rewrite IH. by rewrite !append_append.
Qed.

(** X23. The usage line [init] gives the command is the word status
    followed by each valid argument in brackets, in the order of
    [validArgs]. *)
Theorem init_usage_lists_the_valid_arguments (cache : Config) (w w1 : World)
    (pkg : Package) :
  init cache w = (Returned pkg, w1) ->
  Use (statusCmd pkg) = "status" +:+ usage_line (validArgs pkg).
Proof.
  unfold init, range. run_M.
  destruct (NewPingURLs cache w) as [[[p [e | ]] | e] w0]; intros Heq;
    inversion Heq; subst; clear Heq.
  cbn [statusCmd Use validArgs]. apply fold_left_usage.
Qed.

End Properties.

(** ** The properties at work on closed examples *)

(** C2, as stated, fails: with two services of which the second reference
    answers 500, the map returned beside the error holds the first
    service's endpoint. *)
Lemma ScrapePingURLs_partial_map_beside_error :
  ~ (forall (w : World_of Document) (url : string) (p : PingURLs) (e : error),
       (ScrapePingURLs url w).1 = (p, Some e) -> p = ∅).
Proof.
  intros Hclaim.
  specialize (Hclaim (quiet_world half_network ∅ 0) manifestURL
                {[ "queue" := "https://queue.taskcluster.net/ping" ]}
                (BadStatus 500 "https://auth.example.com/ref")).
  assert (Hrun : (ScrapePingURLs manifestURL (quiet_world half_network ∅ 0)).1 =
                 ({[ "queue" := "https://queue.taskcluster.net/ping" ]},
                  Some (BadStatus 500 "https://auth.example.com/ref")))
    by (vm_compute; reflexivity).
  specialize (Hclaim Hrun).
  by apply map_non_empty_singleton in Hclaim.
Qed.

Lemma ScrapePingURLs_stops_at_failure_witness :
  (ScrapePingURLs manifestURL (quiet_world half_network ∅ 0)).1 =
    ({[ "queue" := "https://queue.taskcluster.net/ping" ]},
     Some (BadStatus 500 "https://auth.example.com/ref")) /\
  requests (ScrapePingURLs manifestURL (quiet_world half_network ∅ 0)).2 =
    [ manifestURL; "https://queue.example.com/ref"; "https://auth.example.com/ref" ].
Proof.
  pose (w0 := quiet_world half_network ∅ 0).
  pose (w1 := (objectFromJSONURL json_Decode_manifest manifestURL ∅
                 (print (Coloured Yellow ("Scraping ping URLs from " +:+ manifestURL))
                        w0).2).2).
  pose (w2 := (scrape_references [ "https://queue.example.com/ref" ] ∅ w1).2).
  pose (w3 := (objectFromJSONURL json_Decode_API "https://auth.example.com/ref"
                 zero_API w2).2).
  destruct (proj2 (ScrapePingURLs_stops_at_failure (L := DocLib))
              manifestURL w0 w1 w2 w3
              (list_to_map [("queue", "https://queue.example.com/ref");
                            ("auth", "https://auth.example.com/ref")])
              [ "https://queue.example.com/ref" ] [] "https://auth.example.com/ref"
              {[ "queue" := "https://queue.taskcluster.net/ping" ]} zero_API
              (BadStatus 500 "https://auth.example.com/ref"))
    as (Hrun & _); [ run_fst | vm_compute; reflexivity | run_fst | run_fst | ].
  fold w0. rewrite Hrun. split; [ reflexivity | vm_compute; reflexivity ].
Defined.

Lemma scrape_references_skips_no_ping_witness :
  (scrape_references
      [ "https://docs.example.com/ref"; "https://queue.example.com/ref" ] ∅
      (quiet_world docs_network ∅ 0)).1 =
    ({[ "queue" := "https://queue.taskcluster.net/ping" ]}, None).
Proof.
  pose (w0 := quiet_world docs_network ∅ 0).
  pose (w1 := (objectFromJSONURL json_Decode_API "https://docs.example.com/ref"
                 zero_API w0).2).
  destruct (scrape_references_skips_no_ping (L := DocLib)
              "https://docs.example.com/ref" [ "https://queue.example.com/ref" ]
              ∅ w0 w1 docs_reference) as [_ Hskip];
    [ run_fst | repeat constructor; discriminate | ].
  fold w0. rewrite Hskip. vm_compute; reflexivity.
Defined.

Lemma ScrapePingURLs_names_service_by_host_witness :
  (ScrapePingURLs manifestURL (quiet_world renamed_network ∅ 0)).1 =
    ({[ "queue" := "https://queue.taskcluster.net/ping" ]}, None).
Proof.
  pose (w0 := quiet_world renamed_network ∅ 0).
  pose (w1 := (objectFromJSONURL json_Decode_manifest manifestURL ∅
                 (print (Coloured Yellow ("Scraping ping URLs from " +:+ manifestURL))
                        w0).2).2).
  pose (w2 := (objectFromJSONURL json_Decode_API "https://queue.example.com/ref"
                 zero_API w1).2).
  fold w0.
  rewrite (proj1 (proj2 (ScrapePingURLs_names_service_by_host (L := DocLib)))
             manifestURL "q" "https://queue.example.com/ref" w0 w1 w2
             queue_reference [] [] {| Name := "ping"; Route := "/ping" |}
             "queue.taskcluster.net");
    [ vm_compute; reflexivity | run_fst | vm_compute; reflexivity | run_fst
    | reflexivity | constructor | reflexivity | vm_compute; reflexivity ].
Defined.


(** C5, as stated, fails: with a cache file that is there and does not
    read, nothing is requested, and the error is returned. *)
Lemma NewPingURLs_locked_cache_is_not_refreshed :
  ~ (forall (w : World_of Document) (cache : Config)
            (object : option CachedURLs) (e : error),
       cache_there cache w ->
       (ReadCachedURLsFile cache pingURLsCachePath w).1 = (object, Some e) ->
       requests (NewPingURLs cache w).2 <> requests w \/
       (NewPingURLs cache w).1 <> Returned (∅, Some e)).
Proof.
  intros Hclaim.
  destruct (Hclaim (quiet_world queue_network locked_cache 0) home_cache None
              (LibError "permission denied")) as [Hrefreshed | Hsucceeded].
  - apply (mk_is_Some _ locked_file). vm_compute; reflexivity.
  - vm_compute; reflexivity.
  - apply Hrefreshed. vm_compute; reflexivity.
  - apply Hsucceeded. vm_compute; reflexivity.
Qed.

Lemma NewPingURLs_unreadable_cache_is_an_error_witness :
  (NewPingURLs home_cache (quiet_world queue_network garbled_cache 0)).1 =
    Returned (∅, Some cannot_unmarshal) /\
  (init home_cache (quiet_world queue_network garbled_cache 0)).1 =
    Panicked cannot_unmarshal /\
  requests (init home_cache (quiet_world queue_network garbled_cache 0)).2 = [].
Proof.
  destruct (proj1 (NewPingURLs_unreadable_cache_is_an_error (L := DocLib))
              home_cache (quiet_world queue_network garbled_cache 0) None
              cannot_unmarshal) as [Hnew Hinit].
  - apply (mk_is_Some _ garbled_file). vm_compute; reflexivity.
  - vm_compute; reflexivity.
  - rewrite Hnew, Hinit. repeat split; reflexivity.
Defined.

Lemma RefreshCache_unwritable_cache_panics_witness :
  (RefreshCache manifestURL home_cache pingURLsCachePath
     (read_only_world queue_network ∅ 0)).1 =
    (queue_only, Some (LibError "read-only file system")) /\
  (init home_cache (read_only_world queue_network ∅ 0)).1 =
    Panicked (LibError "read-only file system").
Proof.
  pose (w0 := read_only_world queue_network ∅ 0).
  pose (w' := (RefreshCache manifestURL home_cache pingURLsCachePath w0).2).
  destruct (proj1 (proj2 (proj2 (RefreshCache_unwritable_cache_panics (L := DocLib))))
              home_cache w0 w' queue_only (LibError "read-only file system"))
    as [_ Hinit].
  - assert (Hnone : files w0 !! filepath_Join (Path home_cache) pingURLsCachePath
                    = None) by (vm_compute; reflexivity).
    intros Hthere. exact (is_Some_None (eq_ind _ is_Some Hthere _ Hnone)).
  - run_fst.
  - fold w0. rewrite Hinit. split; [ vm_compute; reflexivity | reflexivity ].
Defined.

(** C6, as stated, fails: with no cache yet, the run that refuses an unknown
    name has first requested the manifest and the reference. *)
Lemma unknown_service_after_a_refresh :
  ~ (forall (w w1 : World_of Document) (cache : Config) (args : list string)
            (arg : string) (pkg : Package),
       init cache w = (Returned pkg, w1) ->
       In arg args -> ~ In arg (validArgs pkg) ->
       (run cache args w).1 = Returned (Some InvalidArguments) /\
       requests (run cache args w).2 = requests w).
Proof.
  intros Hclaim.
  pose (w0 := quiet_world queue_network ∅ 0).
  assert (Hrequested : requests (run home_cache [ "bogus-service" ] w0).2 =
                       [ manifestURL; "https://queue.example.com/ref" ])
    by (vm_compute; reflexivity).
  destruct (Hclaim w0 (init (L := DocLib) home_cache w0).2 home_cache [ "bogus-service" ]
              "bogus-service"
              queue_package)
    as [_ Hnone].
  - run_fst.
  - by left.
  - cbn. intros [Heq | []]. discriminate.
  - rewrite Hrequested in Hnone. discriminate.
Qed.

Lemma unknown_service_is_refused_before_any_ping_witness :
  (run home_cache [ "queue"; "bogus-service" ]
     (quiet_world ping_network cached_at_0 (3600 * 10 ^ 9))).1 =
    Returned (Some InvalidArguments) /\
  requests (run home_cache [ "queue"; "bogus-service" ]
              (quiet_world ping_network cached_at_0 (3600 * 10 ^ 9))).2 = [].
Proof.
  pose (w0 := quiet_world ping_network cached_at_0 (3600 * 10 ^ 9)).
  pose (w1 := (init home_cache w0).2).
  destruct (unknown_service_is_refused_before_any_ping (L := DocLib)
              home_cache [ "queue"; "bogus-service" ] "bogus-service" w0 w1
              queue_package)
    as (_ & Hrun & Hquiet).
  - run_fst.
  - right. by left.
  - cbn. intros [Heq | []]. discriminate.
  - fold w0. rewrite Hrun. split; [ reflexivity | ]. cbn [snd].
    rewrite (Hquiet written_at_0).
    + reflexivity.
    + apply (mk_is_Some _ file_of_0). vm_compute; reflexivity.
    + vm_compute; reflexivity.
    + vm_compute. discriminate.
Defined.


Lemma respbody_prints_Alive_or_nothing_witness :
  (respbody three_services "queue" (quiet_world ping_network ∅ 0)).1 = None /\
  stdout (respbody three_services "queue" (quiet_world ping_network ∅ 0)).2 =
    alive_lines "queue".
Proof.
  pose (w0 := quiet_world ping_network ∅ 0).
  pose (w1 := (objectFromJSONURL json_Decode_PingResponse
                 (ping_url three_services "queue") zero_PingResponse w0).2).
  destruct (respbody_prints_Alive_or_nothing (L := DocLib)
              three_services "queue" w0 w1 alive_report)
    as (w2 & Hbody & Hout & _).
  - run_fst.
  - fold w0. rewrite Hbody. cbn [fst snd]. rewrite Hout. split; reflexivity.
Defined.

(** *** The further properties on closed examples *)

Lemma Expired_for_any_threshold_witness :
  (Expired (L := DocLib) (Some written_at_0) day
     (quiet_world queue_network ∅ (25 * 3600 * 10 ^ 9))).1 = Returned true.
Proof.
  destruct (Expired_for_any_threshold (L := DocLib)
              (quiet_world queue_network ∅ (25 * 3600 * 10 ^ 9)) written_at_0 day)
    as (b & Hrun & Hiff).
  - vm_compute. split; discriminate.
  - rewrite Hrun. cbn [fst]. f_equal. apply Hiff. vm_compute. by split.
Defined.

Lemma ScrapePingURLs_requests_every_reference_witness :
  requests (ScrapePingURLs (L := DocLib) manifestURL
              (quiet_world queue_network ∅ 0)).2 =
    [ manifestURL; "https://queue.example.com/ref" ].
Proof.
  pose (w0 := quiet_world queue_network ∅ 0).
  pose (w1 := (objectFromJSONURL json_Decode_manifest manifestURL ∅
                 (print (Coloured Yellow ("Scraping ping URLs from " +:+ manifestURL))
                        w0).2).2).
  pose (w2 := (ScrapePingURLs (L := DocLib) manifestURL w0).2).
  fold w0. fold w2.
  rewrite (ScrapePingURLs_requests_every_reference (L := DocLib)
             manifestURL w0 w1 w2
             (list_to_map [("queue", "https://queue.example.com/ref")]) queue_only);
    [ vm_compute; reflexivity | run_value | run_value ].
Defined.

Lemma ScrapePingURLs_names_have_no_dot_witness :
  (ScrapePingURLs (L := DocLib) manifestURL (quiet_world half_network ∅ 0)).1.1
    !! "queue" = Some "https://queue.taskcluster.net/ping" /\
  has_dot "queue" = false.
Proof.
  assert (Hqueue : (ScrapePingURLs (L := DocLib) manifestURL
                      (quiet_world half_network ∅ 0)).1.1 !! "queue"
                   = Some "https://queue.taskcluster.net/ping")
    by (vm_compute; reflexivity).
  split; [ exact Hqueue | ].
  exact (ScrapePingURLs_names_have_no_dot (L := DocLib) _ _ _ _ Hqueue).
Defined.

Lemma ScrapePingURLs_size_bound_witness :
  (size (ScrapePingURLs (L := DocLib) manifestURL
           (quiet_world half_network ∅ 0%Z)).1.1 <= 2)%nat.
Proof.
  pose (w0 := quiet_world half_network ∅ 0).
  pose (w1 := (objectFromJSONURL json_Decode_manifest manifestURL ∅
                 (print (Coloured Yellow ("Scraping ping URLs from " +:+ manifestURL))
                        w0).2).2).
  refine (eq_ind _ (fun n => (_ <= n)%nat)
            (ScrapePingURLs_size_bound (L := DocLib) manifestURL w0 w1
               (list_to_map [("queue", "https://queue.example.com/ref");
                             ("auth", "https://auth.example.com/ref")]) _) _ _).
  - run_value.
  - vm_compute; reflexivity.
Defined.

Lemma scrape_references_stops_at_bad_base_url_witness :
  (scrape_references (L := DocLib)
     [ "https://spaced.example.com/ref"; "https://queue.example.com/ref" ] ∅
     (quiet_world spaced_network ∅ 0)).1 =
    (∅, Some (LibError "invalid character in host name")) /\
  requests (scrape_references (L := DocLib)
              [ "https://spaced.example.com/ref"; "https://queue.example.com/ref" ] ∅
              (quiet_world spaced_network ∅ 0)).2 =
    [ "https://spaced.example.com/ref" ].
Proof.
  pose (w0 := quiet_world spaced_network ∅ 0).
  pose (w1 := (objectFromJSONURL json_Decode_API "https://spaced.example.com/ref"
                 zero_API w0).2).
  destruct (scrape_references_stops_at_bad_base_url (L := DocLib)
              "https://spaced.example.com/ref" [ "https://queue.example.com/ref" ]
              ∅ w0 w1 spaced_reference [] [] {| Name := "ping"; Route := "/ping" |}
              (LibError "invalid character in host name"))
    as [Hrun Hrequests].
  - run_value.
  - reflexivity.
  - constructor.
  - reflexivity.
  - vm_compute; reflexivity.
  - fold w0. rewrite Hrun. cbn [fst snd]. rewrite Hrequests.
    split; [ reflexivity | vm_compute; reflexivity ].
Defined.

Lemma NewPingURLs_null_cache_panics_witness :
  (init (L := DocLib) home_cache (quiet_world queue_network null_cache 0)).1 =
    Panicked NilDereference.
Proof.
  destruct (NewPingURLs_null_cache_panics (L := DocLib) home_cache
              (quiet_world queue_network null_cache 0)) as [_ Hinit].
  - apply (mk_is_Some _ null_file). vm_compute; reflexivity.
  - vm_compute; reflexivity.
  - by rewrite Hinit.
Defined.

Lemma NewPingURLs_fresh_cache_hit_witness :
  (NewPingURLs (L := DocLib) home_cache
     (quiet_world queue_network cached_at_0 day)).1 = Returned (queue_only, None) /\
  requests (NewPingURLs (L := DocLib) home_cache
              (quiet_world queue_network cached_at_0 day)).2 = [].
Proof.
  destruct (NewPingURLs_fresh_cache_hit (L := DocLib) home_cache
              (quiet_world queue_network cached_at_0 day) written_at_0)
    as (Hnew & Hrequests & _).
  - apply (mk_is_Some _ file_of_0). vm_compute; reflexivity.
  - vm_compute; reflexivity.
  - vm_compute. discriminate.
  - rewrite Hrequests. split; [ by rewrite Hnew | reflexivity ].
Defined.

Lemma Cache_replaces_only_its_file_witness :
  files (Cache (L := DocLib) queue_only home_cache pingURLsCachePath
           (quiet_world queue_network locked_cache 0)).2 !! cache_file =
    Some file_of_0.
Proof.
  pose (w0 := quiet_world queue_network locked_cache 0).
  pose (w1 := (Cache (L := DocLib) queue_only home_cache pingURLsCachePath w0).2).
  destruct (Cache_replaces_only_its_file (L := DocLib) queue_only home_cache
              pingURLsCachePath w0 w1 written_at_0) as (Hfile & _).
  - run_value.
  - exact Hfile.
Defined.

Lemma RefreshCache_then_NewPingURLs_witness :
  (NewPingURLs (L := DocLib) home_cache
     (RefreshCache (L := DocLib) manifestURL home_cache pingURLsCachePath
        (quiet_world queue_network ∅ 0)).2).1 = Returned (queue_only, None).
Proof.
  pose (w0 := quiet_world queue_network ∅ 0).
  pose (w1 := (RefreshCache (L := DocLib) manifestURL home_cache
                 pingURLsCachePath w0).2).
  destruct (RefreshCache_then_NewPingURLs (L := DocLib) home_cache w0 w1
              queue_only written_at_0) as [Hnew _].
  - run_value.
  - vm_compute; reflexivity.
  - reflexivity.
  - vm_compute. discriminate.
  - exact Hnew.
Defined.

Lemma NewPingURLs_leaves_the_cache_there_witness :
  cache_there (L := DocLib) home_cache
    (NewPingURLs (L := DocLib) home_cache (quiet_world queue_network ∅ 0)).2.
Proof.
  apply (NewPingURLs_leaves_the_cache_there (L := DocLib) home_cache
           (quiet_world queue_network ∅ 0) _ queue_only).
  run_value.
Defined.

Lemma status_returns_nil_after_every_ping_witness :
  requests (status (L := DocLib) three_services (statusCmd three_services)
              [ "queue"; "index" ] (quiet_world ping_network ∅ 0)).2 =
    [ "https://queue.taskcluster.net/ping"; "https://index.taskcluster.net/ping" ].
Proof.
  pose (w0 := quiet_world ping_network ∅ 0).
  pose (w' := (status (L := DocLib) three_services (statusCmd three_services)
                 [ "queue"; "index" ] w0).2).
  destruct (status_returns_nil_after_every_ping (L := DocLib) three_services
              (statusCmd three_services) [ "queue"; "index" ] w0 w' None)
    as (_ & Hrequests & _).
  - run_value.
  - fold w0. fold w'. rewrite Hrequests. vm_compute; reflexivity.
Defined.

Lemma init_validArgs_are_the_keys_witness :
  NoDup (validArgs queue_package) /\
  ValidArgs (statusCmd queue_package) = validArgs queue_package.
Proof.
  pose (w0 := quiet_world queue_network cached_at_0 0).
  pose (w1 := (init (L := DocLib) home_cache w0).2).
  destruct (init_validArgs_are_the_keys (L := DocLib) home_cache w0 w1
              queue_package) as (_ & Hnodup & Hcmd).
  - run_value.
  - vm_compute. reflexivity.
  - by split.
Defined.

Lemma respbody_close_error_is_an_error_witness :
  (respbody (L := DocLib) three_services "queue"
     (quiet_world unclosed_network ∅ 0)).1 =
    Some (LibError "close: connection reset") /\
  stdout (respbody (L := DocLib) three_services "queue"
            (quiet_world unclosed_network ∅ 0)).2 = [].
Proof.
  destruct (respbody_close_error_is_an_error (L := DocLib) three_services "queue"
              (quiet_world unclosed_network ∅ 0) alive_unclosed alive_report
              (LibError "close: connection reset")) as [Hbody Hout].
  - vm_compute; reflexivity.
  - reflexivity.
  - reflexivity.
  - reflexivity.
  - rewrite Hout. split; [ by rewrite Hbody | reflexivity ].
Defined.

Lemma Execute_follows_the_flag_witness :
  (Execute (expand_arguments (ArgBool true)) (scope_world down_service)).1 =
    Returned false /\
  Execute (expand_arguments (ArgBool false)) (scope_world down_service) =
    (Returned true, scope_world down_service).
Proof.
  split.
  - destruct (Execute_follows_the_flag (expand_arguments (ArgBool true))
                (scope_world down_service) [ "assume:repo:x" ] true)
      as (_ & _ & Hfalse).
    + vm_compute; reflexivity.
    + vm_compute; reflexivity.
    + apply Hfalse. by exists "connection refused".
  - apply (Execute_follows_the_flag (expand_arguments (ArgBool false))
             (scope_world down_service) [ "assume:repo:x" ] false);
      vm_compute; reflexivity.
Defined.

Lemma NewPingURLs_stale_cache_is_rewritten_witness :
  files refreshed_world !! cache_file =
    Some (Content (Doc_cache {| LastUpdated := 25 * 3600 * 10 ^ 9;
                                PingURLs_of := queue_only |})).
Proof.
  refine (eq_trans
            (proj2 (NewPingURLs_stale_cache_is_rewritten (L := DocLib) home_cache
                      stale_world refreshed_world written_at_0 queue_only
                      _ _ _ _)) _).
  - apply (mk_is_Some _ file_of_0). vm_compute; reflexivity.
  - vm_compute; reflexivity.
  - vm_compute; reflexivity.
  - run_value.
  - vm_compute; reflexivity.
Defined.

Lemma init_usage_lists_the_valid_arguments_witness :
  Use (statusCmd queue_package) = "status [queue]".
Proof.
  pose (w0 := quiet_world queue_network cached_at_0 0).
  pose (w1 := (init (L := DocLib) home_cache w0).2).
  apply (init_usage_lists_the_valid_arguments (L := DocLib) home_cache w0 w1
           queue_package).
  run_value.
Defined.
